(** * Shallow embedding of the log aggregator of [logz/file.go]

    The write path ([WriteLog], [flushBatch], [shouldRotate],
    [rotateFile], [initializeFile], [getFileSequence]), the maintenance
    tasks ([cleanupOldFiles], [compressOldFiles]), [Close] and the query
    engine ([QueryLogs], [canUseIndex], [queryWithIndex],
    [readLogEntry], [queryWithFileScan]) are modelled over an explicit
    state: the aggregator's fields, the output directory and the clock.
    [json.Marshal] of a [LogEntry] and [bufio.Writer] are written out;
    [json.Unmarshal], [regexp.MatchString] and [time.Parse] are left as
    parameters of the query section. *)

From Stdlib Require Import String Ascii ZArith List Bool Lia.
From Stdlib Require DecimalPos.
Import ListNotations.
Local Open Scope string_scope.

Local Infix "+s+" := String.append (at level 60, right associativity).

(** ** Characters and strings *)

Definition chr (n : nat) : ascii := ascii_of_nat n.
Definition str1 (c : ascii) : string := String c EmptyString.
Definition dq : string := str1 (chr 34).
Definition code (c : ascii) : nat := nat_of_ascii c.

Definition is_empty (s : string) : bool := String.eqb s EmptyString.

(** [strings.HasSuffix] *)
Definition has_suffix (suf s : string) : bool :=
  (String.length suf <=? String.length s)%nat &&
  String.eqb (substring (String.length s - String.length suf)
                        (String.length suf) s) suf.

(** [strings.HasPrefix] *)
Definition has_prefix (pre s : string) : bool := String.prefix pre s.

(** [filepath.Match] on a pattern [pre*suf] whose [pre] and [suf] hold no
    metacharacter; directory entries hold no separator. *)
Definition glob_match (pre suf name : string) : bool :=
  has_prefix pre name && has_suffix suf name &&
  (String.length pre + String.length suf <=? String.length name)%nat.


(** Decimal formatting of an integer ([strconv.AppendInt], [%d]). *)
Fixpoint uint_digits (d : Decimal.uint) : string :=
  match d with
  | Decimal.Nil => EmptyString
  | Decimal.D0 d => String "0" (uint_digits d)
  | Decimal.D1 d => String "1" (uint_digits d)
  | Decimal.D2 d => String "2" (uint_digits d)
  | Decimal.D3 d => String "3" (uint_digits d)
  | Decimal.D4 d => String "4" (uint_digits d)
  | Decimal.D5 d => String "5" (uint_digits d)
  | Decimal.D6 d => String "6" (uint_digits d)
  | Decimal.D7 d => String "7" (uint_digits d)
  | Decimal.D8 d => String "8" (uint_digits d)
  | Decimal.D9 d => String "9" (uint_digits d)
  end.

Definition format_int (z : Z) : string :=
  match z with
  | Z0 => "0"
  | Zpos p => uint_digits (Pos.to_uint p)
  | Zneg p => "-" +s+ uint_digits (Pos.to_uint p)
  end.

Fixpoint zeros (n : nat) : string :=
  match n with O => EmptyString | S n => String "0" (zeros n) end.

(** [%0wd] for a non-negative value. *)
Definition pad_int (w : nat) (z : Z) : string :=
  let s := format_int z in zeros (w - String.length s) +s+ s.

(** ** Records *)

(** A value of a [map[string]any]: the dynamic types a log field takes;
    [VUnsupported] stands for a channel, function or complex value, on
    which [json.Marshal] fails with an [UnsupportedTypeError]. *)
Inductive GoValue :=
| VString (s : string)
| VInt (z : Z)
| VBool (b : bool)
| VNil
| VUnsupported.

(** [LogEntry]; [Fields] lists the map's entries (distinct keys). *)
Record LogEntry := mkLogEntry {
  Timestamp : string;
  Level : string;
  Message : string;
  TraceID : string;
  SpanID : string;
  Caller : string;
  Fields : list (string * GoValue);
  Service : string;
  File : string;
  FileID : string;
  Offset : Z
}.

Definition stamp (e : LogEntry) (fid : string) (off : Z) : LogEntry :=
  {| Timestamp := Timestamp e; Level := Level e; Message := Message e;
     TraceID := TraceID e; SpanID := SpanID e; Caller := Caller e;
     Fields := Fields e; Service := Service e; File := File e;
     FileID := fid; Offset := off |}.

(** ** [json.Marshal] (with HTML escaping, as [encoding/json] does) *)

Definition hex_digit (n : nat) : ascii :=
  match String.get n "0123456789abcdef" with Some c => c | None => "0"%char end.

Definition escape_byte (c : ascii) : string :=
  let n := code c in
  if (n =? 34)%nat || (n =? 92)%nat then String (chr 92) (str1 c)
  else if (n =? 8)%nat then "\b"
  else if (n =? 12)%nat then "\f"
  else if (n =? 10)%nat then "\n"
  else if (n =? 13)%nat then "\r"
  else if (n =? 9)%nat then "\t"
  else if (n <? 32)%nat || (n =? 60)%nat || (n =? 62)%nat || (n =? 38)%nat
  then "\u00" +s+ str1 (hex_digit (n / 16)) +s+ str1 (hex_digit (n mod 16))
  else str1 c.

(** Text is valid UTF-8; U+2028 and U+2029 are escaped as by
    [encoding/json]. *)
Fixpoint escape (s : string) : string :=
  match s with
  | EmptyString => EmptyString
  | String a s' =>
      match s' with
      | String b (String c rest) =>
          if (code a =? 226)%nat && (code b =? 128)%nat
             && ((code c =? 168)%nat || (code c =? 169)%nat)
          then "\u202" +s+ (if (code c =? 168)%nat then "8" else "9")
               +s+ escape rest
          else escape_byte a +s+ escape s'
      | _ => escape_byte a +s+ escape s'
      end
  end.

Definition quote (s : string) : string := dq +s+ escape s +s+ dq.

Definition member (k v : string) : string := quote k +s+ ":" +s+ v.

Definition marshal_value (v : GoValue) : option string :=
  match v with
  | VString s => Some (quote s)
  | VInt z => Some (format_int z)
  | VBool true => Some "true"
  | VBool false => Some "false"
  | VNil => Some "null"
  | VUnsupported => None
  end.

(** Map keys are written in increasing byte order. *)
Fixpoint insert_kv (kv : string * GoValue) (l : list (string * GoValue)) :=
  match l with
  | [] => [kv]
  | x :: t => if String.ltb (fst kv) (fst x) then kv :: l else x :: insert_kv kv t
  end.

Definition sort_kv (l : list (string * GoValue)) := fold_right insert_kv [] l.

Fixpoint marshal_members (l : list (string * GoValue)) : option (list string) :=
  match l with
  | [] => Some []
  | (k, v) :: t =>
      match marshal_value v, marshal_members t with
      | Some sv, Some st => Some (member k sv :: st)
      | _, _ => None
      end
  end.

Definition omit_str (k s : string) : list string :=
  if is_empty s then [] else [member k (quote s)].

(** [json.Marshal(entry)]: fields in declaration order, [omitempty]
    fields left out when empty. *)
Definition marshal (e : LogEntry) : option string :=
  let fields_part :=
    match Fields e with
    | [] => Some []
    | fs => match marshal_members (sort_kv fs) with
            | Some ms => Some [member "fields" ("{" +s+ String.concat "," ms +s+ "}")]
            | None => None
            end
    end in
  match fields_part with
  | None => None
  | Some fp =>
      Some ("{" +s+ String.concat ","
        (([member "timestamp" (quote (Timestamp e));
          member "level" (quote (Level e));
          member "msg" (quote (Message e))]
         ++ omit_str "trace_id" (TraceID e)
         ++ omit_str "span_id" (SpanID e)
         ++ omit_str "caller" (Caller e)
         ++ fp
         ++ omit_str "service" (Service e)
         ++ omit_str "file" (File e)
         ++ omit_str "file_id" (FileID e)
         ++ (if (Offset e =? 0)%Z then [] else [member "offset" (format_int (Offset e))]))%list)
        +s+ "}")
  end.

Definition newline : string := str1 (chr 10).


(** ** Clock and directory *)

(** An instant: seconds since the epoch and its calendar date. *)
Record Time := mkTime { unix : Z; year : Z; month : Z; day : Z }.

(** [t.Format("2006-01-02")] *)
Definition format_date (t : Time) : string :=
  pad_int 4 (year t) +s+ "-" +s+ pad_int 2 (month t) +s+ "-" +s+ pad_int 2 (day t).

(** A file of the output directory: its name, bytes and modification
    time. *)
Record DirEntry := mkDirEntry { name : string; data : string; mtime : Z }.

Definition Dir := list DirEntry.

Fixpoint dir_lookup (d : Dir) (n : string) : option DirEntry :=
  match d with
  | [] => None
  | e :: t => if String.eqb (name e) n then Some e else dir_lookup t n
  end.

Definition dir_remove (d : Dir) (n : string) : Dir :=
  filter (fun e => negb (String.eqb (name e) n)) d.

(** Appending to a file that has been unlinked from the directory loses
    the bytes. *)
Definition dir_append (d : Dir) (n p : string) (t : Z) : Dir :=
  map (fun e => if String.eqb (name e) n
                then mkDirEntry (name e) (data e +s+ p) t else e) d.

(** [os.Create]: create or truncate. *)
Definition dir_create (d : Dir) (n p : string) (t : Z) : Dir :=
  app (dir_remove d n) [mkDirEntry n p t].

(** [filepath.Glob] of [dir/pre*suf]. *)
Definition glob (d : Dir) (pre suf : string) : list DirEntry :=
  filter (fun e => glob_match pre suf (name e)) d.

(** ** Aggregator state *)

Inductive GoError :=
| EncodeError        (** "序列化日志条目失败" *)
| WriteError         (** "写入日志文件失败" *)
| ErrClosed          (** [os.ErrClosed] from a closed [*os.File] *)
| CreateError.       (** "创建聚合日志文件失败" *)

(** [bufio.Writer]: the pending bytes and the latched error. *)
Record Writer := mkWriter { wbuf : string; werr : option GoError }.

Definition bufio_size : nat := 4096.

(** [*os.File]: the path it was opened at and whether it is still open. *)
Record Handle := mkHandle { hname : string; hopen : bool }.

Record LogAggregator := mkAgg {
  serviceName : string;
  rotationSize : Z;
  maxBackups : Z;
  aggregateFile : option Handle;
  writer : Writer;
  lastRotation : Time;
  currentFileID : string;
  currentOffset : Z;
  batchSize : Z;
  batchBuffer : list LogEntry;
  compressAfter : Z;
  (** entries passed to [addToIndex], oldest first *)
  indexed : list LogEntry;
  indexDBOpen : bool
}.

(** The world one aggregator acts on; [unopenable] lists the names of
    the output directory at which [os.OpenFile] fails (no permission, a
    directory of that name, ...). *)
Record St := mkSt { agg : LogAggregator; dir : Dir; now : Time; unopenable : list string }.

Definition set_agg (s : St) (a : LogAggregator) : St := mkSt a (dir s) (now s) (unopenable s).
Definition set_dir (s : St) (d : Dir) : St := mkSt (agg s) d (now s) (unopenable s).

Definition with_file (a : LogAggregator) (h : option Handle) (w : Writer) :=
  mkAgg (serviceName a) (rotationSize a) (maxBackups a) h w (lastRotation a)
        (currentFileID a) (currentOffset a) (batchSize a) (batchBuffer a)
        (compressAfter a) (indexed a) (indexDBOpen a).

Definition with_offset (a : LogAggregator) (fid : string) (off : Z) :=
  mkAgg (serviceName a) (rotationSize a) (maxBackups a) (aggregateFile a)
        (writer a) (lastRotation a) fid off (batchSize a) (batchBuffer a)
        (compressAfter a) (indexed a) (indexDBOpen a).

Definition with_batch (a : LogAggregator) (b : list LogEntry) :=
  mkAgg (serviceName a) (rotationSize a) (maxBackups a) (aggregateFile a)
        (writer a) (lastRotation a) (currentFileID a) (currentOffset a)
        (batchSize a) b (compressAfter a) (indexed a) (indexDBOpen a).

Definition with_indexed (a : LogAggregator) (l : list LogEntry) :=
  mkAgg (serviceName a) (rotationSize a) (maxBackups a) (aggregateFile a)
        (writer a) (lastRotation a) (currentFileID a) (currentOffset a)
        (batchSize a) (batchBuffer a) (compressAfter a) l (indexDBOpen a).

Definition with_db (a : LogAggregator) (b : bool) :=
  mkAgg (serviceName a) (rotationSize a) (maxBackups a) (aggregateFile a)
        (writer a) (lastRotation a) (currentFileID a) (currentOffset a)
        (batchSize a) (batchBuffer a) (compressAfter a) (indexed a) b.

(** ** A state and error monad: an error stops the computation and keeps
    the effects already made, as a Go [return err] does. *)

Inductive Result (A : Type) := Ok (a : A) | Err (e : GoError).
Arguments Ok {A} a.
Arguments Err {A} e.

Definition M (A : Type) := St -> Result A * St.

Definition ret {A} (a : A) : M A := fun s => (Ok a, s).
Definition fail {A} (e : GoError) : M A := fun s => (Err e, s).
Definition bind {A B} (m : M A) (k : A -> M B) : M B :=
  fun s => match m s with
           | (Ok a, s') => k a s'
           | (Err e, s') => (Err e, s')
           end.
Definition get : M St := fun s => (Ok s, s).
Definition put (s : St) : M unit := fun _ => (Ok tt, s).
Definition modify_agg (f : LogAggregator -> LogAggregator) : M unit :=
  fun s => (Ok tt, set_agg s (f (agg s))).
(** Run [m] and drop its error, as a call whose result Go ignores. *)
Definition ignore {A} (m : M A) : M unit :=
  fun s => (Ok tt, snd (m s)).

Notation "x <- m ;; k" := (bind m (fun x => k))
  (at level 61, m at next level, right associativity).
Notation "m ;;; k" := (bind m (fun _ => k)) (at level 61, right associativity).

(** ** [os.File.Write] and [bufio.Writer] *)

Definition file_write (p : string) : M unit := fun s =>
  match aggregateFile (agg s) with
  | Some h => if hopen h
              then (Ok tt, set_dir s (dir_append (dir s) (hname h) p (unix (now s))))
              else (Err ErrClosed, s)
  | None => (Err ErrClosed, s)
  end.

Definition set_writer (w : Writer) : M unit :=
  modify_agg (fun a => with_file a (aggregateFile a) w).

(** [Flush] of [*bufio.Writer] *)
Definition writer_flush : M unit := fun s =>
  let w := writer (agg s) in
  match werr w with
  | Some e => (Err e, s)
  | None =>
      if is_empty (wbuf w) then (Ok tt, s)
      else match file_write (wbuf w) s with
           | (Ok _, s') => set_writer (mkWriter EmptyString None) s'
           | (Err e, s') => (Err e, snd (set_writer (mkWriter (wbuf w) (Some e)) s'))
           end
  end.

(** [Write] of [*bufio.Writer]: the loop runs at most three rounds (fill and
    flush, then a direct write or a copy that fits). *)
Fixpoint bufio_write_loop (fuel : nat) (p : string) : M unit :=
  fun s =>
  let w := writer (agg s) in
  match werr w with
  | Some e => (Err e, s)
  | None =>
    let avail := (bufio_size - String.length (wbuf w))%nat in
    if (String.length p <=? avail)%nat then
      set_writer (mkWriter (wbuf w +s+ p) None) s
    else match fuel with
    | O => (Ok tt, s)
    | S fuel' =>
      if is_empty (wbuf w) then
        match file_write p s with
        | (Ok _, s') => (Ok tt, s')
        | (Err e, s') => (Err e, snd (set_writer (mkWriter EmptyString (Some e)) s'))
        end
      else
        let s1 := snd (set_writer (mkWriter (wbuf w +s+ substring 0 avail p) None) s) in
        let s2 := snd (writer_flush s1) in
        bufio_write_loop fuel' (substring avail (String.length p - avail) p) s2
    end
  end.

Definition bufio_write (p : string) : M unit := bufio_write_loop 3 p.

(** ** Write path *)

(** [addToIndex]: the entry is handed to an indexing goroutine; the
    model records the hand-off. *)
Definition addToIndex (e : LogEntry) : M unit :=
  modify_agg (fun a => with_indexed a (app (indexed a) [e])).

(** The loop of [flushBatch] over the buffered entries. *)
Fixpoint flush_entries (es : list LogEntry) : M unit :=
  match es with
  | [] => ret tt
  | e :: rest =>
      match marshal e with
      | None => fail EncodeError
      | Some data =>
          fun s =>
          match bufio_write (data +s+ newline) s with
          | (Err _, s') => (Err WriteError, s')
          | (Ok _, s') =>
              (modify_agg (fun a => with_offset a (currentFileID a)
                 (currentOffset a + Z.of_nat (String.length data) + 1)%Z) ;;;
               addToIndex e ;;;
               flush_entries rest) s'
          end
      end
  end.

Definition flushBatch : M unit := fun s =>
  match batchBuffer (agg s) with
  | [] => (Ok tt, s)
  | b => (flush_entries b ;;;
          ignore writer_flush ;;;
          modify_agg (fun a => with_batch a [])) s
  end.

Definition shouldRotate : M bool := fun s =>
  let a := agg s in
  let too_big :=
    match aggregateFile a with
    | Some h =>
        if hopen h then
          match dir_lookup (dir s) (hname h) with
          | Some e => (rotationSize a <? Z.of_nat (String.length (data e)))%Z
          | None => false  (* Stat of an unlinked file: not modelled *)
          end
        else false  (* Stat on a closed file fails *)
    | None => false
    end in
  (Ok (too_big || negb (day (now s) =? day (lastRotation a))%Z), s).

Definition day_seconds : Z := 86400.

(** [cleanupOldFiles]: remove [service_*.log] files modified more than
    seven days ago. *)
Definition cleanupOldFiles : M unit := fun s =>
  let cutoff := (unix (now s) - 7 * day_seconds)%Z in
  let pre := serviceName (agg s) +s+ "_" in
  (Ok tt, set_dir s (filter (fun e => negb (glob_match pre ".log" (name e)
                                            && (mtime e <? cutoff)%Z)) (dir s))).

(** [getFileSequence(now)] *)
Definition getFileSequence (s : St) : Z :=
  let pattern_pre := serviceName (agg s) +s+ "_" +s+ format_date (now s) +s+ "_" in
  (Z.of_nat (length (glob (dir s) pattern_pre ".log")) + 1)%Z.

(** The [la.currentFileID] that [initializeFile] computes. *)
Definition new_file_id (s : St) : string :=
  serviceName (agg s) +s+ "_" +s+ format_date (now s) +s+ "_" +s+ pad_int 3 (getFileSequence s).

Definition close_file : M unit :=
  modify_agg (fun a => match aggregateFile a with
                       | Some h => with_file a (Some (mkHandle (hname h) false)) (writer a)
                       | None => a
                       end).

(** The part of [initializeFile] after the previous shard is closed, when
    [os.OpenFile] succeeds. *)
Definition open_new_shard (s1 : St) : St :=
  let a := agg s1 in
  let fid := new_file_id s1 in
  let fname := fid +s+ ".log" in
  (* os.OpenFile with O_CREATE|O_WRONLY|O_APPEND *)
  let d := match dir_lookup (dir s1) fname with
           | Some _ => dir s1
           | None => app (dir s1) [mkDirEntry fname EmptyString (unix (now s1))]
           end in
  mkSt (with_file (with_offset a fid 0) (Some (mkHandle fname true))
                  (mkWriter EmptyString None)) d (now s1) (unopenable s1).

(** When [os.OpenFile] fails, [currentFileID] and [currentOffset] are
    already set and the previous (closed) handle and writer stay. *)
Definition initializeFile : M unit := fun s =>
  let s1 := match aggregateFile (agg s) with
            | Some _ => snd ((ignore writer_flush ;;; close_file) s)
            | None => s
            end in
  let fid := new_file_id s1 in
  if existsb (String.eqb (fid +s+ ".log")) (unopenable s1)
  then (Err CreateError, set_agg s1 (with_offset (agg s1) fid 0))
  else (Ok tt, open_new_shard s1).

Definition rotateFile : M unit :=
  flushBatch ;;;
  ignore writer_flush ;;;
  close_file ;;;
  cleanupOldFiles ;;;
  initializeFile.

Definition WriteLog (entry : LogEntry) : M unit :=
  modify_agg (fun a => with_batch a
    (app (batchBuffer a) [stamp entry (currentFileID a) (currentOffset a)])) ;;;
  r <- shouldRotate ;;
  (if r then rotateFile else ret tt) ;;;
  s <- get ;;
  if (batchSize (agg s) <=? Z.of_nat (length (batchBuffer (agg s))))%Z
  then flushBatch else ret tt.

(** [Close] holds [la.mutex] when it calls [flushBatch], which locks the
    same (non-reentrant) mutex when the buffer is not empty: [Close] then
    never returns, written [None]. *)
Definition Close (s : St) : option (Result unit * St) :=
  match batchBuffer (agg s) with
  | _ :: _ => None
  | [] => Some ((ignore writer_flush ;;;
                 close_file ;;;
                 modify_agg (fun a => with_db a false) ;;;
                 ret tt) s)
  end.

(** [NewLogAggregator] when the directories and the index database open,
    in a directory where every name can be opened (so the first
    [initializeFile] succeeds). *)
Definition NewLogAggregator (t : Time) (outputDir_entries : Dir)
    (service : string) (rotation : Z) (backups : Z) : St :=
  snd (initializeFile
         (mkSt (mkAgg service rotation backups None (mkWriter EmptyString None) t
                      EmptyString 0 100 [] (24 * 3600) [] true)
               outputDir_entries t [])).

(** ** Maintenance *)

(** [compressFile]: write [path.gz], then remove [path]; the gzip member
    is recorded by the bytes it holds. *)
Definition compressFile (t : Z) (d : Dir) (e : DirEntry) : Dir :=
  dir_remove (dir_create d (name e +s+ ".gz") (data e) t) (name e).

Definition compressOldFiles : M unit := fun s =>
  let cutoff := (unix (now s) - compressAfter (agg s))%Z in
  let files := glob (dir s) (serviceName (agg s) +s+ "_") ".log" in
  let old := filter (fun e => (mtime e <? cutoff)%Z && negb (has_suffix ".gz" (name e)))
                    files in
  (Ok tt, set_dir s (fold_left (compressFile (unix (now s))) old (dir s))).

(** One tick of [backgroundTasks]. *)
Definition backgroundTick : M unit := ignore flushBatch ;;; compressOldFiles.

(** ** Text helpers of the query side *)

(** [strings.Split(s, sep)] for a one-byte separator. *)
Fixpoint split_on (sep : ascii) (s : string) : list string :=
  match s with
  | EmptyString => [EmptyString]
  | String c s' =>
      if Ascii.eqb c sep then EmptyString :: split_on sep s'
      else match split_on sep s' with
           | l :: t => String c l :: t
           | [] => [str1 c]
           end
  end.

Definition drop_cr (l : string) : string :=
  if has_suffix (str1 (chr 13)) l then substring 0 (String.length l - 1) l else l.

(** The raw lines a [bufio.Scanner] with [ScanLines] sees: the pieces
    between newlines, a final empty piece dropped. *)
Definition raw_lines (s : string) : list string :=
  let pieces := split_on (chr 10) s in
  if is_empty (last pieces EmptyString) then removelast pieces else pieces.

(** [bufio.MaxScanTokenSize]: the scanner's buffer never grows past it. *)
Definition maxScanTokenSize : Z := 65536.

(** The scanner hands out one token per raw line, its trailing carriage
    return dropped; a raw line that does not fit in the buffer with the
    byte after it (its newline, or room to see the end of the file) ends
    the scan with [bufio.ErrTooLong], the [bool] of the result. *)
Fixpoint scan_tokens (l : list string) : list string * bool :=
  match l with
  | [] => ([], false)
  | p :: t =>
      if (Z.of_nat (String.length p) <? maxScanTokenSize)%Z
      then let '(ts, too_long) := scan_tokens t in (drop_cr p :: ts, too_long)
      else ([], true)
  end.

(** The tokens of a [bufio.Scanner] with [ScanLines] over [s], and
    whether [Err()] is [ErrTooLong] at the end. *)
Definition scan_lines (s : string) : list string * bool := scan_tokens (raw_lines s).

Definition is_space (c : ascii) : bool :=
  let n := code c in (n =? 32)%nat || ((9 <=? n)%nat && (n <=? 13)%nat).

Fixpoint drop_spaces (l : list ascii) : list ascii :=
  match l with
  | c :: t => if is_space c then drop_spaces t else l
  | [] => []
  end.

(** [strings.TrimSpace] (ASCII white space). *)
Definition trim_space (s : string) : string :=
  string_of_list_ascii
    (rev (drop_spaces (rev (drop_spaces (list_ascii_of_string s))))).

Definition lower_ascii (c : ascii) : ascii :=
  let n := code c in if (65 <=? n)%nat && (n <=? 90)%nat then chr (n + 32) else c.

(** [strings.ToLower] and [strings.EqualFold] on ASCII text. *)
Definition to_lower (s : string) : string :=
  string_of_list_ascii (map lower_ascii (list_ascii_of_string s)).

Definition equal_fold (a b : string) : bool := String.eqb (to_lower a) (to_lower b).

Fixpoint digits_value (s : string) (acc : Z) : option Z :=
  match s with
  | EmptyString => Some acc
  | String c s' =>
      let n := code c in
      if (48 <=? n)%nat && (n <=? 57)%nat
      then digits_value s' (acc * 10 + Z.of_nat (n - 48))%Z else None
  end.

(** [strconv.ParseInt(s, 10, 64)] *)
Definition parseInt (s : string) : option Z :=
  let '(neg, body) :=
    match s with
    | String c s' =>
        if Ascii.eqb c "+"%char then (false, s')
        else if Ascii.eqb c "-"%char then (true, s') else (false, s)
    | EmptyString => (false, s)
    end in
  if is_empty body then None else
  match digits_value body 0 with
  | None => None
  | Some v =>
      let z := if neg then (- v)%Z else v in
      if ((- 2 ^ 63 <=? z) && (z <? 2 ^ 63))%Z then Some z else None
  end.

(** Go's [int] arithmetic (64 bits). *)
Definition wrap64 (z : Z) : Z := ((z + 2 ^ 63) mod 2 ^ 64 - 2 ^ 63)%Z.

(** ** Queries *)

(** [LogQuery]; a zero [time.Time] is [None], instants are nanoseconds. *)
Record LogQuery := mkLogQuery {
  qTraceID : string;
  qSpanID : string;
  qLevel : string;
  qService : string;
  qStartTime : option Z;
  qEndTime : option Z;
  qMessage : string;
  qLimit : Z;
  qOffset : Z;
  qUseIndex : bool
}.

Record LogQueryResult := mkLogQueryResult {
  Entries : list LogEntry;
  Total : Z;
  RLimit : Z;
  ROffset : Z
}.

(** What [QueryLogs] does: a result, or a run-time panic (slice bounds). *)
Inductive QueryOutcome :=
| QOk (r : LogQueryResult)
| QPanic.

(** The bbolt index store: open or closed, and its [(bucket, key, value)]
    entries, the latest [Put] first. *)
Record IndexDB := mkIndexDB { dbOpen : bool; postings : list (string * string * string) }.

Definition index_buckets : list string := ["trace_id"; "span_id"; "level"; "service"; "time"].

Definition db_get (db : IndexDB) (bucket key : string) : option string :=
  match find (fun p => let '(b, k, _) := p in String.eqb b bucket && String.eqb k key)
             (postings db) with
  | Some (_, _, v) => Some v
  | None => None
  end.

(** [canUseIndex] *)
Definition canUseIndex (q : LogQuery) : bool :=
  let conditions :=
    ((if is_empty (qTraceID q) then 0 else 1)
     + (if is_empty (qSpanID q) then 0 else 1)
     + (if is_empty (qLevel q) then 0 else 1)
     + (if is_empty (qService q) then 0 else 1))%nat in
  (conditions =? 1)%nat.

(** The bucket and key chosen by [queryWithIndex]. *)
Definition index_key (q : LogQuery) : string * string :=
  if negb (is_empty (qTraceID q)) then ("trace_id", qTraceID q)
  else if negb (is_empty (qSpanID q)) then ("span_id", qSpanID q)
  else if negb (is_empty (qLevel q)) then ("level", to_lower (qLevel q))
  else if negb (is_empty (qService q)) then ("service", qService q)
  else (EmptyString, EmptyString).

(** Stable sort by modification time, newest first. *)
Fixpoint insert_by_mtime (e : DirEntry) (l : list DirEntry) : list DirEntry :=
  match l with
  | [] => [e]
  | x :: t => if (mtime x <? mtime e)%Z then e :: l else x :: insert_by_mtime e t
  end.

Definition sort_newest_first (l : list DirEntry) : list DirEntry :=
  fold_right insert_by_mtime [] (rev l).

Section Query.

(** [json.Unmarshal] of one line into a fresh [LogEntry]. *)
Variable unmarshal : string -> option LogEntry.
(** [regexp.MatchString(pattern, s)], its error read as no match. *)
Variable regexMatch : string -> string -> bool.
(** [time.Parse(time.RFC3339, s)], as nanoseconds. *)
Variable parseRFC3339 : string -> option Z.

Definition matchesQuery (e : LogEntry) (q : LogQuery) : bool :=
  if negb (is_empty (qTraceID q)) && negb (String.eqb (TraceID e) (qTraceID q)) then false
  else if negb (is_empty (qSpanID q)) && negb (String.eqb (SpanID e) (qSpanID q)) then false
  else if negb (is_empty (qLevel q)) && negb (equal_fold (Level e) (qLevel q)) then false
  else if negb (is_empty (qService q)) && negb (String.eqb (Service e) (qService q)) then false
  else if negb (is_empty (qMessage q)) && negb (regexMatch (qMessage q) (Message e)) then false
  else match qStartTime q, qEndTime q with
       | None, None => true
       | st, en =>
           match parseRFC3339 (Timestamp e) with
           | None => false
           | Some t =>
               (match st with Some a => negb (t <? a)%Z | None => true end)
               && (match en with Some b => negb (b <? t)%Z | None => true end)
           end
       end.

(** [queryFile] on a file of the directory; [None] is the error
    [scanner.Err()] returned with the entries. *)
Definition queryFile (f : DirEntry) (q : LogQuery) : option (list LogEntry) :=
  let '(lines, too_long) := scan_lines (data f) in
  let entries :=
    flat_map (fun line =>
                let l := trim_space line in
                if is_empty l then []
                else match unmarshal l with
                     | Some e => if matchesQuery e q then [e] else []
                     | None => []
                     end)
             lines in
  if too_long then None else Some entries.

(** The matches of the scan plan, newest file first; a file whose
    [queryFile] fails is skipped. *)
Definition scan_matches (q : LogQuery) (d : Dir) : list LogEntry :=
  flat_map (fun f => match queryFile f q with Some es => es | None => [] end)
           (sort_newest_first (glob d EmptyString ".log")).

(** The pagination of [queryWithFileScan]. *)
Definition paginate (q : LogQuery) (matches : list LogEntry) : QueryOutcome :=
  let total := Z.of_nat (length matches) in
  if (total <=? qOffset q)%Z then QOk (mkLogQueryResult [] total (qLimit q) (qOffset q))
  else
    let end1 := wrap64 (qOffset q + qLimit q) in
    let end2 := if (total <? end1)%Z then total else end1 in
    if (qOffset q <? 0)%Z || (end2 <? qOffset q)%Z then QPanic
    else QOk (mkLogQueryResult
                (firstn (Z.to_nat (end2 - qOffset q)) (skipn (Z.to_nat (qOffset q)) matches))
                total (qLimit q) (qOffset q)).

Definition queryWithFileScan (q : LogQuery) (d : Dir) : QueryOutcome :=
  paginate q (scan_matches q d).

(** [readLogEntry]: seek, read one line, decode; [None] is an error. *)
Definition readLogEntry (d : Dir) (path : string) (off : Z) : option LogEntry :=
  match dir_lookup d path with
  | None => None
  | Some f =>
      if (off <? 0)%Z then None
      else
        let n := Z.to_nat off in
        match fst (scan_lines (substring n (String.length (data f) - n) (data f))) with
        | [] => None
        | l :: _ => unmarshal l
        end
  end.

(** [queryWithIndex]; [None] is an error. *)
Definition queryWithIndex (q : LogQuery) (d : Dir) (db : IndexDB) : option (list LogEntry) :=
  if negb (dbOpen db) then None else
  let '(bucket, key) := index_key q in
  if negb (existsb (String.eqb bucket) index_buckets) then None else
  match db_get db bucket key with
  | None => None
  | Some v =>
      match split_on ":"%char v with
      | [fid; offs] =>
          match parseInt offs with
          | None => None
          | Some off =>
              match readLogEntry d (fid +s+ ".log") off with
              | Some e => Some [e]
              | None => None
              end
          end
      | _ => None
      end
  end.

(** [QueryLogs]; [global] is the index store of the global aggregator,
    [None] when none is set. *)
Definition QueryLogs (global : option IndexDB) (q : LogQuery) (d : Dir) : QueryOutcome :=
  match global with
  | Some db =>
      if qUseIndex q && canUseIndex q then
        match queryWithIndex q d db with
        | Some es => QOk (mkLogQueryResult es (Z.of_nat (length es)) (qLimit q) (qOffset q))
        | None => queryWithFileScan q d
        end
      else queryWithFileScan q d
  | None => queryWithFileScan q d
  end.

End Query.

(** ** Concrete instances *)

(** A [json.Unmarshal] that agrees with the real one on the lines that
    [json.Marshal] produced from [known]. *)
Definition decode_known (known : list LogEntry) (line : string) : option LogEntry :=
  find (fun e => match marshal e with Some m => String.eqb m line | None => false end) known.

(** 2026-10-15T10:00:00Z *)
Definition T0 : Time := mkTime 1792058400 2026 10 15.

Definition advance (t : Time) (s : St) : St := mkSt (agg s) (dir s) t (unopenable s).

Definition rec_msg (m : string) : LogEntry :=
  mkLogEntry "2026-10-15T10:00:00Z" "info" m "t1" EmptyString EmptyString []
             EmptyString EmptyString EmptyString 0.

(** A fresh aggregator on an empty directory, rotation size 100 MiB. *)
Definition st_fresh : St := NewLogAggregator T0 [] "svc" 104857600 10.

(** The bytes of the shard [fid] in the directory of [s]. *)
Definition shard_bytes (s : St) (fid : string) : string :=
  match dir_lookup (dir s) (fid +s+ ".log") with
  | Some e => data e
  | None => EmptyString
  end.

(** Two writes, then a flush (the background ticker). *)
Definition st_two : St :=
  snd ((WriteLog (rec_msg "a") ;;; WriteLog (rec_msg "b") ;;; flushBatch) st_fresh).

Fixpoint repeat_char (n : nat) (c : ascii) : string :=
  match n with O => EmptyString | S n => String c (repeat_char n c) end.

(** A record longer than the [bufio.Writer] buffer, and one whose field
    [json.Marshal] rejects. *)
Definition rec_big : LogEntry := rec_msg (repeat_char 5000 "x"%char).
Definition rec_bad : LogEntry :=
  mkLogEntry "2026-10-15T10:00:00Z" "info" "bad" "t1" EmptyString EmptyString
             [("ch", VUnsupported)] EmptyString EmptyString EmptyString 0.

Definition st_bad_batch : St :=
  snd ((WriteLog rec_big ;;; WriteLog rec_bad) st_fresh).

Definition fid0 : string := "svc_2026-10-15_001".
Definition ra : LogEntry := stamp (rec_msg "a") fid0 0.
Definition rb : LogEntry := stamp (rec_msg "b") fid0 0.

(** One write, flushed. *)
Definition st_one : St := snd ((WriteLog (rec_msg "a") ;;; flushBatch) st_fresh).

(** 2026-10-16T11:00:00Z, 25 hours after [T0]. *)
Definition T1 : Time := mkTime (1792058400 + 25 * 3600) 2026 10 16.

(** The aggregator of [st_one], idle for 25 hours. *)
Definition st_idle : St := advance T1 st_one.

(** A directory holding a compressed first shard and a second shard of
    the day. *)
Definition dir_gz : Dir :=
  [mkDirEntry "svc_2026-10-15_001.log.gz" "{}" 1792050000;
   mkDirEntry "svc_2026-10-15_002.log" ("{}" +s+ newline) 1792050000].

(** Two records flushed by an aggregator whose rotation size is the
    size they take (218 bytes). *)
Definition st_two_218 : St :=
  snd ((WriteLog (rec_msg "a") ;;; WriteLog (rec_msg "b") ;;; flushBatch)
         (NewLogAggregator T0 [] "svc" 218 10)).

(** [regexp.MatchString] on a pattern without metacharacters. *)
Definition literal_match (pat s : string) : bool :=
  match String.index 0 pat s with Some _ => true | None => false end.

Definition no_time (_ : string) : option Z := None.

Definition mk_query (tid msg : string) (limit offset : Z) (use : bool) : LogQuery :=
  mkLogQuery tid EmptyString EmptyString EmptyString None None msg limit offset use.

(** The index store with the posting of [ra] under its trace id. *)
Definition db_ra : IndexDB := mkIndexDB true [("trace_id", "t1", fid0 +s+ ":0")].

(** The same query with other message and time predicates. *)
Definition with_filters (q : LogQuery) (msg : string) (st en : option Z) : LogQuery :=
  mkLogQuery (qTraceID q) (qSpanID q) (qLevel q) (qService q) st en msg
             (qLimit q) (qOffset q) (qUseIndex q).

(** ** The rest of [logz/file.go] *)

(** ** The index update of [addToIndex] *)

(** [fmt.Sprintf("%s:%d", entry.FileID, entry.Offset)] *)
Definition index_value (e : LogEntry) : string :=
  FileID e +s+ ":" +s+ format_int (Offset e).

(** bbolt's [MaxKeySize]: [Put] of a longer key fails, and the goroutine
    ignores that error. *)
Definition max_key_size : nat := 32768.

(** One guarded [bucket.Put(key, value)]. *)
Definition put_if (guard bucket key value : string) : list (string * string * string) :=
  if is_empty guard || (max_key_size <? String.length key)%nat then []
  else [(bucket, key, value)].

(** The [Put]s of the indexing goroutine, in program order. *)
Definition index_puts (e : LogEntry) : list (string * string * string) :=
  let v := index_value e in
  (put_if (TraceID e) "trace_id" (TraceID e) v
   ++ put_if (SpanID e) "span_id" (SpanID e) v
   ++ put_if (Level e) "level" (to_lower (Level e)) v
   ++ put_if (Service e) "service" (Service e) v
   ++ put_if (Timestamp e) "time" (Timestamp e) v)%list.

(** The body of the goroutine started by [addToIndex]: one [Update]
    transaction; on a closed store [Update] fails and nothing changes. *)
Definition index_update (db : IndexDB) (e : LogEntry) : IndexDB :=
  if dbOpen db then mkIndexDB true (rev (index_puts e) ++ postings db)%list else db.

(** ** [CleanupOldLogs] (UTC clock: [AddDate(0, 0, -k)] is [k] days of
    86400 seconds) *)

Definition CleanupOldLogs (t : Time) (d : Dir) (daysToKeep : Z) : Dir :=
  let cutoff := (unix t - daysToKeep * day_seconds)%Z in
  filter (fun e => negb (glob_match EmptyString ".log" (name e) && (mtime e <? cutoff)%Z)) d.

(** ** [GetLogStats]; a zero [time.Time] is [None] (a modification time
    is never the zero time) *)

Record LogStats := mkLogStats {
  total_files : Z;
  total_size : Z;
  oldest_file : string;
  newest_file : string;
  oldest_time : option Z;
  newest_time : option Z
}.

(** One round of the loop of [GetLogStats] over the [*.log] files. *)
Definition stats_step (st : LogStats) (e : DirEntry) : LogStats :=
  let size := (total_size st + Z.of_nat (String.length (data e)))%Z in
  let '(ot, ofile) :=
    match oldest_time st with
    | Some t => if (mtime e <? t)%Z then (Some (mtime e), name e) else (Some t, oldest_file st)
    | None => (Some (mtime e), name e)
    end in
  let '(nt, nfile) :=
    match newest_time st with
    | Some t => if (t <? mtime e)%Z then (Some (mtime e), name e) else (Some t, newest_file st)
    | None => (Some (mtime e), name e)
    end in
  mkLogStats (total_files st) size ofile nfile ot nt.

Definition GetLogStats (d : Dir) : LogStats :=
  let files := glob d EmptyString ".log" in
  fold_left stats_step files
    (mkLogStats (Z.of_nat (length files)) 0 EmptyString EmptyString None None).

(** ** The logrus hook *)

Inductive LogrusLevel :=
| PanicLevel | FatalLevel | ErrorLevel | WarnLevel | InfoLevel | DebugLevel | TraceLevel.

(** [logrus.Level.String] *)
Definition level_string (l : LogrusLevel) : string :=
  match l with
  | PanicLevel => "panic"
  | FatalLevel => "fatal"
  | ErrorLevel => "error"
  | WarnLevel => "warning"
  | InfoLevel => "info"
  | DebugLevel => "debug"
  | TraceLevel => "trace"
  end.

(** A [*logrus.Entry]: [Data] lists the map's entries (distinct keys);
    [Caller] is the file and line of the call site when reported. *)
Record LogrusEntry := mkLogrusEntry {
  eTime : Time;
  eLevel : LogrusLevel;
  eMessage : string;
  eData : list (string * GoValue);
  eCaller : option (string * Z)
}.

(** [AggregatorHook]; its aggregator is the state the hook acts on. *)
Record AggregatorHook := mkAggregatorHook { hook_service : string }.

Definition NewAggregatorHook (service : string) : AggregatorHook :=
  mkAggregatorHook service.

Fixpoint data_get (l : list (string * GoValue)) (k : string) : option GoValue :=
  match l with
  | [] => None
  | (k', v) :: t => if String.eqb k' k then Some v else data_get t k
  end.

(** [v, ok := entry.Data[k].(string)] *)
Definition data_string (l : list (string * GoValue)) (k : string) : option string :=
  match data_get l k with Some (VString s) => Some s | _ => None end.

Fixpoint drop_slashes (l : list ascii) : list ascii :=
  match l with
  | c :: t => if Ascii.eqb c "/"%char then drop_slashes t else l
  | [] => []
  end.

Fixpoint take_until_slash (l : list ascii) : list ascii :=
  match l with
  | c :: t => if Ascii.eqb c "/"%char then [] else c :: take_until_slash t
  | [] => []
  end.

(** [filepath.Base] on a Unix path. *)
Definition base (p : string) : string :=
  if is_empty p then "." else
  match drop_slashes (rev (list_ascii_of_string p)) with
  | [] => "/"
  | r => string_of_list_ascii (rev (take_until_slash r))
  end.

Section Hook.

(** [t.Format(time.RFC3339)] *)
Variable formatRFC3339 : Time -> string.

(** The [LogEntry] that [Fire] builds. *)
Definition fire_entry (h : AggregatorHook) (le : LogrusEntry) : LogEntry :=
  {| Timestamp := formatRFC3339 (eTime le);
     Level := level_string (eLevel le);
     Message := eMessage le;
     TraceID := match data_string (eData le) "trace_id" with Some s => s | None => EmptyString end;
     SpanID := match data_string (eData le) "span_id" with Some s => s | None => EmptyString end;
     Caller := match eCaller le with
               | Some (f, line) => base f +s+ ":" +s+ format_int line
               | None => EmptyString
               end;
     Fields := filter (fun kv => negb (String.eqb (fst kv) "trace_id")
                                 && negb (String.eqb (fst kv) "span_id")) (eData le);
     Service := hook_service h;
     File := EmptyString;
     FileID := EmptyString;
     Offset := 0 |}.

Definition Fire (h : AggregatorHook) (le : LogrusEntry) : M unit :=
  WriteLog (fire_entry h le).

End Hook.

(** ** What [flushBatch] writes *)

(** The lines of the encoded records [ms], each ended by a newline. *)
Fixpoint encode_lines (ms : list string) : string :=
  match ms with
  | [] => EmptyString
  | m :: t => m +s+ newline +s+ encode_lines t
  end.

(** No newline and no carriage return. *)
Definition no_line_break (s : string) : bool :=
  forallb (fun c => negb (Ascii.eqb c (chr 10)) && negb (Ascii.eqb c (chr 13)))
          (list_ascii_of_string s).

(** The character [c] does not occur in [s]. *)
Definition excludes (c : ascii) (s : string) : bool :=
  forallb (fun x => negb (Ascii.eqb x c)) (list_ascii_of_string s).

(** Decimal digits, read left to right. *)
Fixpoint dec_acc (d : Decimal.uint) (acc : Z) : Z :=
  match d with
  | Decimal.Nil => acc
  | Decimal.D0 l => dec_acc l (acc * 10 + 0)
  | Decimal.D1 l => dec_acc l (acc * 10 + 1)
  | Decimal.D2 l => dec_acc l (acc * 10 + 2)
  | Decimal.D3 l => dec_acc l (acc * 10 + 3)
  | Decimal.D4 l => dec_acc l (acc * 10 + 4)
  | Decimal.D5 l => dec_acc l (acc * 10 + 5)
  | Decimal.D6 l => dec_acc l (acc * 10 + 6)
  | Decimal.D7 l => dec_acc l (acc * 10 + 7)
  | Decimal.D8 l => dec_acc l (acc * 10 + 8)
  | Decimal.D9 l => dec_acc l (acc * 10 + 9)
  end.

(** What the loop of [GetLogStats] knows of the oldest file after the
    files [seen]. *)
Definition oldest_inv (st : LogStats) (seen : list DirEntry) : Prop :=
  (oldest_time st = None /\ oldest_file st = EmptyString /\ seen = []) \/
  (exists eo, In eo seen /\ oldest_time st = Some (mtime eo) /\ oldest_file st = name eo /\
              forall e, In e seen -> (mtime eo <= mtime e)%Z).

(** The same for the newest file. *)
Definition newest_inv (st : LogStats) (seen : list DirEntry) : Prop :=
  (newest_time st = None /\ newest_file st = EmptyString /\ seen = []) \/
  (exists en, In en seen /\ newest_time st = Some (mtime en) /\ newest_file st = name en /\
              forall e, In e seen -> (mtime e <= mtime en)%Z).

(** Fields no step of the write path changes. *)
Definition keeps (s s' : St) : Prop :=
  lastRotation (agg s') = lastRotation (agg s) /\ now s' = now s /\
  batchSize (agg s') = batchSize (agg s).

(** [m] keeps those fields. *)
Definition frame {A} (m : M A) : Prop := forall s, keeps s (snd (m s)).

(** The shard [n] is the open file of the aggregator and its writer has
    no latched error. *)
Definition ready (s : St) (n : string) : Prop :=
  aggregateFile (agg s) = Some (mkHandle n true) /\ werr (writer (agg s)) = None.

(** The bytes of the file [n]. *)
Definition file_data (s : St) (n : string) : option string :=
  option_map data (dir_lookup (dir s) n).

(** Only the writer and the directory changed. *)
Definition io_only (s s' : St) : Prop :=
  aggregateFile (agg s') = aggregateFile (agg s) /\
  currentFileID (agg s') = currentFileID (agg s) /\
  currentOffset (agg s') = currentOffset (agg s) /\
  batchBuffer (agg s') = batchBuffer (agg s) /\
  indexed (agg s') = indexed (agg s).

(** The encoding of [e], empty when [json.Marshal] fails. *)
Definition marshal_or_empty (e : LogEntry) : string :=
  match marshal e with Some m => m | None => EmptyString end.

(** One write on a fresh aggregator, not yet flushed. *)
Definition st_w1 : St := snd (WriteLog (rec_msg "a") st_fresh).

(** A record stamped with a file id holding a colon. *)
Definition rec_colon : LogEntry := stamp (rec_msg "a") "svc:odd" 0.

(** The directory [dir_gz] seen by a fresh aggregator on the next day. *)
Definition st_gz : St := mkSt (agg st_fresh) dir_gz T1 [].

(** The first entry of a directory listing. *)
Definition first_entry (d : Dir) : DirEntry :=
  match d with x :: _ => x | [] => mkDirEntry EmptyString EmptyString 0 end.

(** ** Lemmas *)

Lemma wrap64_small : forall z, (0 <= z < 2 ^ 63)%Z -> wrap64 z = z.
Proof.
  intros z Hz. unfold wrap64.
  rewrite Z.mod_small by lia. lia.
Qed.



(** ** Claims *)

(** C1 (code_bug). Two records written and then flushed are both
    stamped with offset 0, the shard's offset when they were buffered;
    the second record's line starts at byte [len(line 1)], and the bytes
    [[0, len(encode rb) + 1)] named by its stamp are the first record's
    line, which decodes to [ra], not [rb]. *)
Theorem flushed_stamp_names_previous_line :
  indexed (agg st_two) = [ra; rb] /\
  exists m1 m2,
    marshal ra = Some m1 /\ marshal rb = Some m2 /\
    String.length m1 = String.length m2 /\
    shard_bytes st_two (FileID rb) = m1 +s+ newline +s+ m2 +s+ newline /\
    substring (Z.to_nat (Offset rb)) (String.length m2 + 1) (shard_bytes st_two (FileID rb))
      = m1 +s+ newline /\
    readLogEntry (decode_known [ra; rb]) (dir st_two) (FileID rb +s+ ".log") (Offset rb)
      = Some ra /\
    Message ra <> Message rb.
Proof.
  split; [vm_compute; reflexivity|].
  exists (match marshal ra with Some m => m | None => EmptyString end),
         (match marshal rb with Some m => m | None => EmptyString end).
  repeat split; vm_compute; try reflexivity; discriminate.
Qed.

(** C2 (code_bug). Two successive writes of one producer are stamped with
    the same (shard id, offset) pair. *)
Theorem two_writes_share_locator :
  let s := snd ((WriteLog (rec_msg "a") ;;; WriteLog (rec_msg "b")) st_fresh) in
  batchBuffer (agg s) = [ra; rb] /\
  FileID ra = FileID rb /\ Offset ra = Offset rb /\ ra <> rb.
Proof.
  vm_compute. repeat split; try reflexivity. discriminate.
Qed.

(** C3 (code_bug). After [Close] returned, [WriteLog] is not rejected: it
    buffers the record and returns nil; a second [Close] returns nil. *)
Theorem write_after_close_accepted :
  match Close st_fresh with
  | Some (r, s1) =>
      r = Ok tt /\
      fst (WriteLog (rec_msg "a") s1) = Ok tt /\
      batchBuffer (agg (snd (WriteLog (rec_msg "a") s1))) = [ra] /\
      (exists s2, Close s1 = Some (Ok tt, s2))
  | None => False
  end.
Proof.
  vm_compute. repeat split; try reflexivity. eexists. reflexivity.
Qed.

(** C4 (code_bug). A flush that meets an unencodable record returns
    [EncodeError] and leaves the whole batch buffered; the next flush
    writes the records before it again: after two flushes the shard
    holds the first record's line twice. *)
Theorem encode_error_rewrites_batch :
  let s1 := snd (flushBatch st_bad_batch) in
  let s2 := snd (flushBatch s1) in
  fst (flushBatch st_bad_batch) = Err EncodeError /\
  fst (flushBatch s1) = Err EncodeError /\
  batchBuffer (agg s2) = batchBuffer (agg st_bad_batch) /\
  length (batchBuffer (agg s2)) = 2%nat /\
  exists m, marshal (stamp rec_big fid0 0) = Some m /\
            shard_bytes s2 fid0 = m +s+ newline +s+ m +s+ newline.
Proof.
  cbv zeta. repeat split; [vm_compute; reflexivity ..|].
  exists (match marshal (stamp rec_big fid0 0) with Some m => m | None => EmptyString end).
  split; vm_compute; reflexivity.
Qed.

(** C5 (code_bug). An aggregator idle for 25 hours has its open shard
    compressed and removed by the background task, while it still
    appends to it. *)
Theorem compress_takes_open_shard :
  let s := snd (backgroundTick st_idle) in
  aggregateFile (agg s) = Some (mkHandle (fid0 +s+ ".log") true) /\
  currentFileID (agg s) = fid0 /\
  dir_lookup (dir st_idle) (fid0 +s+ ".log") <> None /\
  dir_lookup (dir s) (fid0 +s+ ".log") = None /\
  dir_lookup (dir s) (fid0 +s+ ".log.gz") <> None.
Proof.
  vm_compute. repeat split; try reflexivity; discriminate.
Qed.

(** C9 (code_bug). With the shard's size equal to the rotation size on
    the day the aggregator was created, [shouldRotate] is false. *)
Theorem shouldRotate_false_at_rotation_size :
  rotationSize (agg st_two_218) = 218%Z /\
  Z.of_nat (String.length (shard_bytes st_two_218 fid0)) = 218%Z /\
  day (now st_two_218) = day (lastRotation (agg st_two_218)) /\
  fst (shouldRotate st_two_218) = Ok false.
Proof.
  vm_compute. repeat split; reflexivity.
Qed.









(** C7 (corrected), counterexample. A query with a trace id and a message
    pattern that the indexed record does not match takes the index plan
    and returns that record; the scan plan returns nothing. *)
Lemma index_plan_skips_message_filter :
  let q := mk_query "t1" "b" 10 0 true in
  QueryLogs (decode_known [ra]) literal_match no_time (Some db_ra) q (dir st_one)
    = QOk (mkLogQueryResult [ra] 1 10 0) /\
  matchesQuery literal_match no_time ra q = false /\
  queryWithFileScan (decode_known [ra]) literal_match no_time q (dir st_one)
    = QOk (mkLogQueryResult [] 0 10 0).
Proof.
  vm_compute. repeat split; reflexivity.
Qed.

Lemma canUseIndex_count : forall q,
  canUseIndex q = true <->
  length (filter (fun v => negb (is_empty v)) [qTraceID q; qSpanID q; qLevel q; qService q]) = 1%nat.
Proof.
  intros q. unfold canUseIndex. simpl.
  destruct (is_empty (qTraceID q)), (is_empty (qSpanID q)),
           (is_empty (qLevel q)), (is_empty (qService q)); simpl;
    split; intro H; try reflexivity; discriminate.
Qed.

(** C7 (corrected), amended. [QueryLogs] returns the index plan's result
    exactly when [UseIndex] is set, a global aggregator is present,
    exactly one of trace id, span id, level and service is non-empty,
    and [queryWithIndex] succeeds; otherwise it returns the scan plan's
    result. Neither the gate nor the index lookup depends on the message
    pattern or the time window. *)
Theorem QueryLogs_plan_choice : forall unm rx pt global q d,
  (canUseIndex q = true <->
   length (filter (fun v => negb (is_empty v)) [qTraceID q; qSpanID q; qLevel q; qService q]) = 1%nat) /\
  (forall msg st en, canUseIndex (with_filters q msg st en) = canUseIndex q /\
     forall db, queryWithIndex unm (with_filters q msg st en) d db = queryWithIndex unm q d db) /\
  ((exists db es, global = Some db /\ qUseIndex q = true /\ canUseIndex q = true /\
      queryWithIndex unm q d db = Some es /\
      QueryLogs unm rx pt global q d
        = QOk (mkLogQueryResult es (Z.of_nat (length es)) (qLimit q) (qOffset q)))
   \/
   ((global = None \/ qUseIndex q && canUseIndex q = false \/
     exists db, global = Some db /\ queryWithIndex unm q d db = None) /\
    QueryLogs unm rx pt global q d = queryWithFileScan unm rx pt q d)).
Proof.
  intros unm rx pt global q d.
  split; [apply canUseIndex_count|].
  split; [intros msg st en; split; [reflexivity | intros db; reflexivity]|].
  unfold QueryLogs.
  destruct global as [db|]; [|right; auto].
  destruct (qUseIndex q && canUseIndex q) eqn:Hg; [|right; auto].
  apply andb_true_iff in Hg as [Hu Hc].
  destruct (queryWithIndex unm q d db) as [es|] eqn:Hq.
  - left. exists db, es. repeat split; auto.
  - right. split; [right; right; exists db; auto | reflexivity].
Qed.

(** C8 (corrected), counterexample. The index store has no entry for the
    trace id (the indexing goroutine has not run): the query does not
    return an empty result but the scan plan's match. *)
Lemma index_miss_returns_scan_result :
  let q := mk_query "t1" EmptyString 10 0 true in
  let db := mkIndexDB true [] in
  db_get db "trace_id" "t1" = None /\
  QueryLogs (decode_known [ra]) literal_match no_time (Some db) q (dir st_one)
    = QOk (mkLogQueryResult [ra] 1 10 0).
Proof.
  vm_compute. split; reflexivity.
Qed.

Lemma index_key_bucket : forall q,
  canUseIndex q = true -> existsb (String.eqb (fst (index_key q))) index_buckets = true.
Proof.
  intros q. unfold canUseIndex, index_key.
  destruct (is_empty (qTraceID q)), (is_empty (qSpanID q)),
           (is_empty (qLevel q)), (is_empty (qService q)); simpl;
    intro H; try discriminate; reflexivity.
Qed.

(** C10 (corrected), counterexample. With one match, [Limit] 0 and
    [Offset] -1, the slice expression [matches[-1:-1]] panics: no entries
    are returned. *)
Lemma scan_negative_offset_panics :
  length (scan_matches (decode_known [ra]) literal_match no_time
            (mk_query "t1" EmptyString 0 (-1) false) (dir st_one)) = 1%nat /\
  queryWithFileScan (decode_known [ra]) literal_match no_time
    (mk_query "t1" EmptyString 0 (-1) false) (dir st_one) = QPanic.
Proof.
  vm_compute. split; reflexivity.
Qed.

(** C10 (corrected), amended. A scan query with [Limit] 0 and
    [0 <= Offset < number of matches] returns no entries and reports the
    number of matches as its total. *)
Theorem scan_limit_zero_returns_no_entries : forall unm rx pt q d,
  qLimit q = 0%Z ->
  (0 <= qOffset q < Z.of_nat (length (scan_matches unm rx pt q d)))%Z ->
  (qOffset q < 2 ^ 63)%Z ->
  queryWithFileScan unm rx pt q d
    = QOk (mkLogQueryResult [] (Z.of_nat (length (scan_matches unm rx pt q d)))
                            (qLimit q) (qOffset q)).
Proof.
  intros unm rx pt q d Hl Ho Hr.
  unfold queryWithFileScan, paginate.
  set (n := Z.of_nat (length (scan_matches unm rx pt q d))) in *.
  destruct (n <=? qOffset q)%Z eqn:H1; [apply Z.leb_le in H1; lia|].
  rewrite Hl, Z.add_0_r, wrap64_small by lia.
  destruct (n <? qOffset q)%Z eqn:H2; [apply Z.ltb_lt in H2; lia|].
  destruct (qOffset q <? 0)%Z eqn:H3; [apply Z.ltb_lt in H3; lia|].
  rewrite Z.ltb_irrefl. simpl. rewrite Z.sub_diag. reflexivity.
Qed.

(** Witness of [scan_limit_zero_returns_no_entries]: one match, offset 0. *)
Lemma scan_limit_zero_returns_no_entries_witness :
  qLimit (mk_query "t1" EmptyString 0 0 false) = 0%Z /\
  queryWithFileScan (decode_known [ra]) literal_match no_time
    (mk_query "t1" EmptyString 0 0 false) (dir st_one)
    = QOk (mkLogQueryResult [] 1 0 0).
Proof.
  split; [reflexivity|].
  apply (scan_limit_zero_returns_no_entries (decode_known [ra]) literal_match no_time
           (mk_query "t1" EmptyString 0 0 false) (dir st_one));
    [reflexivity | vm_compute; split; [intro H; discriminate | reflexivity]
    | vm_compute; reflexivity].
Defined.

(** ** Further properties of [logz/file.go] *)

Lemma las_app : forall a b,
  list_ascii_of_string (a +s+ b) = (list_ascii_of_string a ++ list_ascii_of_string b)%list.
Proof. induction a as [|c a IH]; intros b; simpl; [reflexivity | now rewrite IH]. Qed.














Lemma excludes_app : forall c a b, excludes c (a +s+ b) = excludes c a && excludes c b.
Proof. intros c a b. unfold excludes. rewrite las_app, forallb_app. reflexivity. Qed.

Lemma nlb_excludes_nl : forall s, no_line_break s = true -> excludes (chr 10) s = true.
Proof.
  unfold no_line_break, excludes. intros s. induction (list_ascii_of_string s) as [|c l IH];
    simpl; auto.
  intros H. apply andb_true_iff in H as [H1 H2]. apply andb_true_iff in H1 as [H1 _].
  rewrite H1, IH; auto.
Qed.

Lemma nlb_excludes_cr : forall s, no_line_break s = true -> excludes (chr 13) s = true.
Proof.
  unfold no_line_break, excludes. intros s. induction (list_ascii_of_string s) as [|c l IH];
    simpl; auto.
  intros H. apply andb_true_iff in H as [H1 H2]. apply andb_true_iff in H1 as [_ H1].
  rewrite H1, IH; auto.
Qed.

Lemma split_on_excl : forall c s, excludes c s = true -> split_on c s = [s].
Proof.
  intros c s. induction s as [|x s IH]; simpl; [reflexivity|].
  unfold excludes in *. simpl. intros H. apply andb_true_iff in H as [H1 H2].
  destruct (Ascii.eqb x c); [discriminate|]. rewrite IH by exact H2. reflexivity.
Qed.

Lemma split_on_app : forall c m r, excludes c m = true ->
  split_on c (m +s+ String c r) = m :: split_on c r.
Proof.
  intros c m r. induction m as [|x m IH]; simpl; intros H.
  - rewrite Ascii.eqb_refl. reflexivity.
  - unfold excludes in H. simpl in H. apply andb_true_iff in H as [H1 H2].
    destruct (Ascii.eqb x c); [discriminate|]. rewrite IH by exact H2. reflexivity.
Qed.

Lemma split_on_nonempty : forall c s, split_on c s <> [].
Proof.
  intros c s. destruct s as [|x s]; simpl; [discriminate|].
  destruct (Ascii.eqb x c); [discriminate|]. destruct (split_on c s); discriminate.
Qed.

Lemma split_on_length : forall c s,
  length (split_on c s) = S (length (filter (fun x => Ascii.eqb x c) (list_ascii_of_string s))).
Proof.
  intros c s. induction s as [|x s IH]; simpl; [reflexivity|].
  destruct (Ascii.eqb x c); simpl; [now rewrite IH|].
  destruct (split_on c s) as [|l t] eqn:E; [now apply split_on_nonempty in E|].
  simpl in *. exact IH.
Qed.

Lemma substring_in : forall n k s x,
  In x (list_ascii_of_string (substring n k s)) -> In x (list_ascii_of_string s).
Proof.
  induction n as [|n IH]; intros k s x H.
  - revert k H. induction s as [|c s IHs]; intros k H; destruct k; simpl in H;
      try contradiction.
    destruct H as [H | H]; [left; exact H | right; eapply IHs; exact H].
  - destruct s as [|c s]; simpl in *; [destruct k; contradiction|]. right. eauto.
Qed.

Lemma excludes_in : forall c s, excludes c s = true -> ~ In c (list_ascii_of_string s).
Proof.
  unfold excludes. intros c s H Hin. rewrite forallb_forall in H.
  specialize (H c Hin). rewrite Ascii.eqb_refl in H. discriminate.
Qed.

Lemma drop_cr_id : forall s, excludes (chr 13) s = true -> drop_cr s = s.
Proof.
  intros s H. unfold drop_cr, has_suffix.
  destruct ((String.length (str1 (chr 13)) <=? String.length s)%nat); simpl; [|reflexivity].
  destruct (String.eqb _ _) eqn:E; [|reflexivity].
  apply String.eqb_eq in E. exfalso. apply (excludes_in _ _ H).
  apply (substring_in (String.length s - 1) 1). rewrite E. left. reflexivity.
Qed.


Lemma removelast_cons2 : forall {A} (x : A) l, l <> [] -> removelast (x :: l) = x :: removelast l.
Proof. intros A x l H. destruct l; [contradiction | reflexivity]. Qed.



(** The raw lines after a line without line break that ends in a newline. *)
Lemma raw_lines_first : forall line rest, no_line_break line = true ->
  exists tl, raw_lines (line +s+ newline +s+ rest) = line :: tl.
Proof.
  intros line rest Hn. unfold raw_lines.
  change (line +s+ newline +s+ rest) with (line +s+ String (chr 10) rest).
  rewrite split_on_app by (apply nlb_excludes_nl; exact Hn).
  destruct (is_empty (last (line :: split_on (chr 10) rest) EmptyString)).
  - rewrite removelast_cons2 by apply split_on_nonempty. eexists. reflexivity.
  - eexists. reflexivity.
Qed.




Lemma Z_to_nat_of_nat_len : forall s, Z.to_nat (Z.of_nat (String.length s)) = String.length s.
Proof. intros s. apply Nat2Z.id. Qed.

Lemma substring_full : forall x, substring 0 (String.length x) x = x.
Proof. induction x as [|c x IH]; simpl; [reflexivity | now rewrite IH]. Qed.

Lemma substring_after : forall p x,
  substring (String.length p) (String.length (p +s+ x) - String.length p) (p +s+ x) = x.
Proof.
  induction p as [|c p IH]; intros x; simpl.
  - rewrite Nat.sub_0_r. apply substring_full.
  - apply IH.
Qed.

Lemma substring_end : forall n s, (String.length s <= n)%nat ->
  substring n (String.length s - n) s = EmptyString.
Proof.
  intros n s H. replace (String.length s - n)%nat with 0%nat by lia.
  revert s H. induction n as [|n IH]; intros s H; destruct s; simpl in *; auto.
  apply IH. lia.
Qed.

(** [readLogEntry] at the start of a line: the line is decoded when it
    fits in the scanner's buffer, and the read fails otherwise. *)
Lemma readLogEntry_at_line : forall unm d path f p line rest,
  dir_lookup d path = Some f ->
  data f = p +s+ line +s+ newline +s+ rest ->
  no_line_break line = true ->
  readLogEntry unm d path (Z.of_nat (String.length p)) =
    if (Z.of_nat (String.length line) <? maxScanTokenSize)%Z then unm line else None.
Proof.
  intros unm d path f p line rest Hl Hd Hn.
  unfold readLogEntry. rewrite Hl.
  destruct (Z.of_nat (String.length p) <? 0)%Z eqn:Hneg; [apply Z.ltb_lt in Hneg; lia|].
  rewrite Z_to_nat_of_nat_len, Hd, substring_after.
  unfold scan_lines. destruct (raw_lines_first line rest Hn) as [tl ->].
  simpl. destruct (Z.of_nat (String.length line) <? maxScanTokenSize)%Z; [|reflexivity].
  destruct (scan_tokens tl). simpl.
  rewrite drop_cr_id by (apply nlb_excludes_cr; exact Hn). reflexivity.
Qed.

(** X4. When the shard at path holds a line starting at byte offset len(p), readLogEntry at that offset decodes exactly that line if it is shorter than bufio.Scanner's 65536-byte token limit, and fails if it is longer. *)
Theorem readLogEntry_line_at_offset : forall unm d path f p line rest,
  dir_lookup d path = Some f ->
  data f = p +s+ line +s+ newline +s+ rest ->
  no_line_break line = true ->
  readLogEntry unm d path (Z.of_nat (String.length p)) =
    if (Z.of_nat (String.length line) <? maxScanTokenSize)%Z then unm line else None.
Proof.
  intros unm d path f p line rest Hl Hd Hn.
  exact (readLogEntry_at_line unm d path f p line rest Hl Hd Hn).
Qed.

(** X5. readLogEntry fails when the shard does not exist, when the offset is negative, or when the offset is at or past the end of the file. *)
Theorem readLogEntry_fails_out_of_range : forall unm d path off,
  (dir_lookup d path = None \/
   exists f, dir_lookup d path = Some f /\
             (off < 0 \/ Z.of_nat (String.length (data f)) <= off)%Z) ->
  readLogEntry unm d path off = None.
Proof.
  intros unm d path off [Hn | [f [Hf Ho]]]; unfold readLogEntry.
  - rewrite Hn. reflexivity.
  - rewrite Hf. destruct (off <? 0)%Z eqn:Hneg; [reflexivity|].
    apply Z.ltb_ge in Hneg.
    rewrite substring_end by lia. reflexivity.
Qed.

Lemma digits_uint : forall d acc, digits_value (uint_digits d) acc = Some (dec_acc d acc).
Proof. induction d; intros acc; simpl; try reflexivity; apply IHd. Qed.

Lemma dec_acc_pos : forall d a, dec_acc d (Zpos a) = Zpos (Pos.of_uint_acc d a).
Proof.
  induction d; intros a; cbn [dec_acc Pos.of_uint_acc]; try reflexivity;
    rewrite <- IHd; f_equal; lia.
Qed.

Lemma dec_acc_zero : forall d, dec_acc d 0 = Z.of_N (Pos.of_uint d).
Proof.
  induction d; simpl; try reflexivity; try exact IHd; apply dec_acc_pos.
Qed.

Lemma dec_acc_to_uint : forall p, dec_acc (Pos.to_uint p) 0 = Zpos p.
Proof. intros p. rewrite dec_acc_zero, DecimalPos.Unsigned.of_to. reflexivity. Qed.

Lemma parse_uint_digits : forall d, d <> Decimal.Nil ->
  parseInt (uint_digits d) =
  if ((- 2 ^ 63 <=? dec_acc d 0) && (dec_acc d 0 <? 2 ^ 63))%Z then Some (dec_acc d 0) else None.
Proof.
  intros d Hd. destruct d; [contradiction| ..]; unfold parseInt; simpl;
    rewrite digits_uint; reflexivity.
Qed.

Lemma parse_neg_uint_digits : forall d, d <> Decimal.Nil ->
  parseInt (String "-"%char (uint_digits d)) =
  if ((- 2 ^ 63 <=? - dec_acc d 0) && (- dec_acc d 0 <? 2 ^ 63))%Z then Some (- dec_acc d 0)%Z else None.
Proof.
  intros d Hd. destruct d; [contradiction| ..]; unfold parseInt; simpl;
    rewrite digits_uint; reflexivity.
Qed.

Lemma parseInt_format_int : forall z, (- 2 ^ 63 <= z < 2 ^ 63)%Z -> parseInt (format_int z) = Some z.
Proof.
  intros [|p|p] Hz.
  - reflexivity.
  - simpl format_int. rewrite parse_uint_digits by apply DecimalPos.Unsigned.to_uint_nonnil.
    rewrite dec_acc_to_uint.
    replace ((- 2 ^ 63 <=? Z.pos p) && (Z.pos p <? 2 ^ 63))%Z with true; [reflexivity|].
    symmetry. apply andb_true_iff. split; [apply Z.leb_le | apply Z.ltb_lt]; lia.
  - simpl format_int. rewrite parse_neg_uint_digits by apply DecimalPos.Unsigned.to_uint_nonnil.
    rewrite dec_acc_to_uint.
    replace ((- 2 ^ 63 <=? - Z.pos p) && (- Z.pos p <? 2 ^ 63))%Z with true; [reflexivity|].
    symmetry. apply andb_true_iff. split; [apply Z.leb_le | apply Z.ltb_lt]; lia.
Qed.

Lemma uint_digits_no_colon : forall d, excludes ":"%char (uint_digits d) = true.
Proof. induction d; simpl; try reflexivity; exact IHd. Qed.

Lemma format_int_no_colon : forall z, excludes ":"%char (format_int z) = true.
Proof.
  intros [|p|p]; [reflexivity | apply uint_digits_no_colon |].
  change (excludes ":"%char ("-" +s+ uint_digits (Pos.to_uint p)) = true). rewrite excludes_app, uint_digits_no_colon. reflexivity.
Qed.

Lemma split_index_value : forall e, excludes ":"%char (FileID e) = true ->
  split_on ":"%char (index_value e) = [FileID e; format_int (Offset e)].
Proof.
  intros e H. unfold index_value.
  change (":" +s+ format_int (Offset e)) with (String ":"%char (format_int (Offset e))).
  rewrite split_on_app by exact H. rewrite split_on_excl by apply format_int_no_colon.
  reflexivity.
Qed.

Lemma index_puts_values : forall e p, In p (index_puts e) -> snd p = index_value e.
Proof.
  intros e p H. unfold index_puts, put_if in H.
  repeat (apply in_app_or in H; destruct H as [H|H]);
    repeat match goal with H : In _ (if ?c then _ else _) |- _ => destruct c end;
    simpl in H; intuition subst; reflexivity.
Qed.

Lemma index_puts_buckets : forall e b k, In (b, k) (map fst (index_puts e)) ->
  existsb (String.eqb b) index_buckets = true.
Proof.
  intros e b k H. apply in_map_iff in H as [[[b' k'] v] [Hbk H]]. simpl in Hbk.
  injection Hbk as -> ->. unfold index_puts, put_if in H.
  repeat (apply in_app_or in H; destruct H as [H|H]);
    repeat match goal with H : In _ (if ?c then _ else _) |- _ => destruct c end;
    simpl in H; intuition; match goal with H : (_, _, _) = (_, _, _) |- _ => injection H as <- <- <- end;
    reflexivity.
Qed.

Lemma find_app_split : forall {A} (f : A -> bool) l1 l2,
  find f (l1 ++ l2) = match find f l1 with Some x => Some x | None => find f l2 end.
Proof.
  intros A f l1 l2. induction l1 as [|x l1 IH]; simpl; [reflexivity|].
  destruct (f x); [reflexivity | exact IH].
Qed.

Lemma db_get_index_update : forall db e b k, dbOpen db = true ->
  In (b, k) (map fst (index_puts e)) ->
  db_get (index_update db e) b k = Some (index_value e).
Proof.
  intros db e b k Ho H. unfold index_update. rewrite Ho. unfold db_get. simpl.
  rewrite find_app_split.
  set (f := fun p : string * string * string =>
              let '(b0, k0, _) := p in String.eqb b0 b && String.eqb k0 k).
  destruct (find f (rev (index_puts e))) as [[[b1 k1] v1]|] eqn:Hf.
  - apply find_some in Hf as [Hin _]. apply in_rev in Hin.
    apply index_puts_values in Hin. simpl in Hin. now rewrite Hin.
  - exfalso. apply in_map_iff in H as [[[b' k'] v] [Hbk H]]. simpl in Hbk.
    injection Hbk as -> ->. apply in_rev in H.
    apply (find_none f _ Hf) in H. unfold f in H. rewrite !String.eqb_refl in H. discriminate.
Qed.

(** X6. After addToIndex stores a record whose file id holds no colon and whose offset fits in int64, an index query whose key is one of the record's keys reads back the record at the stored file and offset with readLogEntry. *)
Theorem index_lookup_roundtrip : forall unm q d db e,
  dbOpen db = true ->
  In (index_key q) (map fst (index_puts e)) ->
  excludes ":"%char (FileID e) = true ->
  (- 2 ^ 63 <= Offset e < 2 ^ 63)%Z ->
  queryWithIndex unm q d (index_update db e) =
    match readLogEntry unm d (FileID e +s+ ".log") (Offset e) with
    | Some x => Some [x]
    | None => None
    end.
Proof.
  intros unm q d db e Ho Hk Hc Hr.
  unfold queryWithIndex.
  assert (Ho' : dbOpen (index_update db e) = true) by (unfold index_update; now rewrite Ho).
  rewrite Ho'.
  destruct (index_key q) as [b k] eqn:Hq. cbv beta iota zeta.
  rewrite (index_puts_buckets e b k Hk). cbn [negb].
  rewrite (db_get_index_update db e b k Ho Hk).
  rewrite split_index_value by exact Hc.
  rewrite parseInt_format_int by exact Hr.
  reflexivity.
Qed.

Lemma excludes_false_count : forall c s, excludes c s = false ->
  (1 <= length (filter (fun x => Ascii.eqb x c) (list_ascii_of_string s)))%nat.
Proof.
  unfold excludes. intros c s. induction (list_ascii_of_string s) as [|x l IH]; simpl;
    [discriminate|].
  destruct (Ascii.eqb x c); simpl; [lia|]. exact IH.
Qed.

(** X7. If the stored file id contains a colon, the locator file_id:offset splits into more than two parts, so queryWithIndex returns an error for any key of that record (and QueryLogs then falls back to the file scan). *)
Theorem index_lookup_fails_on_colon_file_id : forall unm q d db e,
  dbOpen db = true ->
  In (index_key q) (map fst (index_puts e)) ->
  excludes ":"%char (FileID e) = false ->
  queryWithIndex unm q d (index_update db e) = None.
Proof.
  intros unm q d db e Ho Hk Hc.
  unfold queryWithIndex.
  assert (Ho' : dbOpen (index_update db e) = true) by (unfold index_update; now rewrite Ho).
  rewrite Ho'.
  destruct (index_key q) as [b k] eqn:Hq. cbv beta iota zeta.
  rewrite (index_puts_buckets e b k Hk). cbn [negb].
  rewrite (db_get_index_update db e b k Ho Hk).
  assert (Hlen : (3 <= length (split_on ":"%char (index_value e)))%nat).
  { rewrite split_on_length. unfold index_value. rewrite !las_app, !filter_app, !length_app.
    simpl. try rewrite Ascii.eqb_refl; simpl.
    pose proof (excludes_false_count _ _ Hc). lia. }
  destruct (split_on ":"%char (index_value e)) as [|x [|y [|z t]]]; simpl in Hlen;
    try lia; reflexivity.
Qed.

(** X8. For a non-negative offset and limit whose sum fits in int64, queryWithFileScan returns the matches from index offset, at most limit of them, with Total the number of all matches and the query's limit and offset echoed back. *)
Theorem scan_pagination_window : forall unm rx pt q d,
  (0 <= qOffset q)%Z -> (0 <= qLimit q)%Z -> (qOffset q + qLimit q < 2 ^ 63)%Z ->
  queryWithFileScan unm rx pt q d =
    QOk (mkLogQueryResult
           (firstn (Z.to_nat (qLimit q)) (skipn (Z.to_nat (qOffset q)) (scan_matches unm rx pt q d)))
           (Z.of_nat (length (scan_matches unm rx pt q d))) (qLimit q) (qOffset q)).
Proof.
  intros unm rx pt q d Ho Hl Hr.
  unfold queryWithFileScan, paginate.
  set (ms := scan_matches unm rx pt q d).
  destruct (Z.of_nat (length ms) <=? qOffset q)%Z eqn:H1.
  - apply Z.leb_le in H1. rewrite skipn_all2 by lia. rewrite firstn_nil. reflexivity.
  - apply Z.leb_gt in H1. rewrite wrap64_small by lia.
    destruct (qOffset q <? 0)%Z eqn:H3; [apply Z.ltb_lt in H3; lia|].
    destruct (Z.of_nat (length ms) <? qOffset q + qLimit q)%Z eqn:H2.
    + apply Z.ltb_lt in H2.
      destruct (Z.of_nat (length ms) <? qOffset q)%Z eqn:H4; [apply Z.ltb_lt in H4; lia|].
      simpl. f_equal. f_equal.
      rewrite !firstn_all2; [reflexivity| rewrite length_skipn; lia ..].
    + apply Z.ltb_ge in H2.
      destruct (qOffset q + qLimit q <? qOffset q)%Z eqn:H4; [apply Z.ltb_lt in H4; lia|].
      simpl. do 3 f_equal. lia.
Qed.

Lemma matchesQuery_sound : forall rx pt e q,
  matchesQuery rx pt e q = true ->
  (qTraceID q <> EmptyString -> TraceID e = qTraceID q) /\
  (qSpanID q <> EmptyString -> SpanID e = qSpanID q) /\
  (qLevel q <> EmptyString -> equal_fold (Level e) (qLevel q) = true) /\
  (qService q <> EmptyString -> Service e = qService q) /\
  (qMessage q <> EmptyString -> rx (qMessage q) (Message e) = true) /\
  (forall a, qStartTime q = Some a -> exists t, pt (Timestamp e) = Some t /\ (a <= t)%Z) /\
  (forall b, qEndTime q = Some b -> exists t, pt (Timestamp e) = Some t /\ (t <= b)%Z).
Proof.
  intros rx pt e q H. unfold matchesQuery in H.
  assert (Hne : forall s, s <> EmptyString -> is_empty s = false).
  { intros s Hs. unfold is_empty. now apply String.eqb_neq. }
  destruct (negb (is_empty (qTraceID q)) && negb (String.eqb (TraceID e) (qTraceID q))) eqn:E1;
    [discriminate|].
  destruct (negb (is_empty (qSpanID q)) && negb (String.eqb (SpanID e) (qSpanID q))) eqn:E2;
    [discriminate|].
  destruct (negb (is_empty (qLevel q)) && negb (equal_fold (Level e) (qLevel q))) eqn:E3;
    [discriminate|].
  destruct (negb (is_empty (qService q)) && negb (String.eqb (Service e) (qService q))) eqn:E4;
    [discriminate|].
  destruct (negb (is_empty (qMessage q)) && negb (rx (qMessage q) (Message e))) eqn:E5;
    [discriminate|].
  split; [intro Hs; rewrite (Hne _ Hs) in E1; simpl in E1;
          apply negb_false_iff, String.eqb_eq in E1; exact E1|].
  split; [intro Hs; rewrite (Hne _ Hs) in E2; simpl in E2;
          apply negb_false_iff, String.eqb_eq in E2; exact E2|].
  split; [intro Hs; rewrite (Hne _ Hs) in E3; simpl in E3;
          apply negb_false_iff in E3; exact E3|].
  split; [intro Hs; rewrite (Hne _ Hs) in E4; simpl in E4;
          apply negb_false_iff, String.eqb_eq in E4; exact E4|].
  split; [intro Hs; rewrite (Hne _ Hs) in E5; simpl in E5;
          apply negb_false_iff in E5; exact E5|].
  destruct (qStartTime q) as [a|], (qEndTime q) as [b|].
  all: try (split; intros x Hx; discriminate Hx).
  all: destruct (pt (Timestamp e)) as [t|]; try discriminate H.
  all: apply andb_true_iff in H as [Ha Hb].
  all: try (apply negb_true_iff, Z.ltb_ge in Ha); try (apply negb_true_iff, Z.ltb_ge in Hb).
  all: split; intros x Hx; inversion Hx; subst; exists t; split; try reflexivity; lia.
Qed.

Lemma in_scan_matches : forall unm rx pt q d e,
  In e (scan_matches unm rx pt q d) -> matchesQuery rx pt e q = true.
Proof.
  intros unm rx pt q d e H. unfold scan_matches in H.
  apply in_flat_map in H as [f [_ H]]. unfold queryFile in H.
  destruct (scan_lines (data f)) as [lines b]. cbv beta iota zeta in H.
  destruct b; [contradiction|].
  apply in_flat_map in H as [line [_ H]].
  destruct (is_empty (trim_space line)); [contradiction|].
  destruct (unm (trim_space line)) as [e'|]; [|contradiction].
  destruct (matchesQuery rx pt e' q) eqn:Hm; [|contradiction].
  destruct H as [<-|[]]. exact Hm.
Qed.

Lemma in_firstn_l : forall {A} n (l : list A) x, In x (firstn n l) -> In x l.
Proof.
  intros A n l x H. rewrite <- (firstn_skipn n l). apply in_or_app. left. exact H.
Qed.

Lemma in_skipn_l : forall {A} n (l : list A) x, In x (skipn n l) -> In x l.
Proof.
  intros A n l x H. rewrite <- (firstn_skipn n l). apply in_or_app. right. exact H.
Qed.

Lemma paginate_subset : forall q ms r e,
  paginate q ms = QOk r -> In e (Entries r) -> In e ms.
Proof.
  intros q ms r e H Hin. unfold paginate in H.
  destruct (Z.of_nat (length ms) <=? qOffset q)%Z.
  - injection H as <-. contradiction.
  - destruct (_ || _); [discriminate|]. injection H as <-. simpl in Hin.
    eapply in_skipn_l, in_firstn_l. exact Hin.
Qed.

(** X10. Every record returned by queryWithFileScan satisfies each non-empty filter of the query: trace id, span id, level up to case, service, message pattern, and the time bounds. *)
Theorem scan_results_satisfy_query : forall unm rx pt q d r e,
  queryWithFileScan unm rx pt q d = QOk r -> In e (Entries r) ->
  (qTraceID q <> EmptyString -> TraceID e = qTraceID q) /\
  (qSpanID q <> EmptyString -> SpanID e = qSpanID q) /\
  (qLevel q <> EmptyString -> equal_fold (Level e) (qLevel q) = true) /\
  (qService q <> EmptyString -> Service e = qService q) /\
  (qMessage q <> EmptyString -> rx (qMessage q) (Message e) = true) /\
  (forall a, qStartTime q = Some a -> exists t, pt (Timestamp e) = Some t /\ (a <= t)%Z) /\
  (forall b, qEndTime q = Some b -> exists t, pt (Timestamp e) = Some t /\ (t <= b)%Z).
Proof.
  intros unm rx pt q d r e H Hin.
  apply matchesQuery_sound.
  apply (in_scan_matches unm rx pt q d).
  exact (paginate_subset q _ r e H Hin).
Qed.

Lemma substring_split : forall k s, (k <= String.length s)%nat ->
  s = substring 0 k s +s+ substring k (String.length s - k) s.
Proof.
  induction k as [|k IH]; intros s H.
  - rewrite Nat.sub_0_r, substring_full. destruct s; reflexivity.
  - destruct s as [|c s]; simpl in H; [lia|]. simpl. f_equal. apply IH. lia.
Qed.

Lemma has_suffix_split : forall suf s, has_suffix suf s = true -> exists p, s = p +s+ suf.
Proof.
  intros suf s H. unfold has_suffix in H. apply andb_true_iff in H as [H1 H2].
  apply Nat.leb_le in H1. apply String.eqb_eq in H2.
  exists (substring 0 (String.length s - String.length suf) s).
  rewrite (substring_split (String.length s - String.length suf) s) at 1 by lia.
  replace (String.length s - (String.length s - String.length suf))%nat
    with (String.length suf) by lia.
  rewrite H2. reflexivity.
Qed.

Lemma gz_not_log : forall n, has_suffix ".gz" n = true -> has_suffix ".log" n = false.
Proof.
  intros n H1. destruct (has_suffix ".log" n) eqn:H2; [|reflexivity]. exfalso.
  apply has_suffix_split in H1 as [p1 E1]. apply has_suffix_split in H2 as [p2 E2].
  rewrite E1 in E2. apply (f_equal (fun s => rev (list_ascii_of_string s))) in E2.
  rewrite !las_app, !rev_app_distr in E2. simpl in E2. discriminate.
Qed.

(** X11. Files ending in .gz are never deleted by cleanupOldFiles or by CleanupOldLogs, whatever their age, because both only match *.log names. *)
Theorem gz_archives_survive_cleanup : forall s e k,
  In e (dir s) -> has_suffix ".gz" (name e) = true ->
  In e (dir (snd (cleanupOldFiles s))) /\ In e (CleanupOldLogs (now s) (dir s) k).
Proof.
  intros s e k Hin Hgz.
  assert (Hg : forall pre, glob_match pre ".log" (name e) = false).
  { intros pre. unfold glob_match. rewrite (gz_not_log _ Hgz), andb_false_r. reflexivity. }
  split.
  - unfold cleanupOldFiles. simpl. apply filter_In. split; [exact Hin|].
    rewrite Hg. reflexivity.
  - unfold CleanupOldLogs. apply filter_In. split; [exact Hin|]. rewrite Hg. reflexivity.
Qed.

(** [GetLogStats] *)
Lemma stats_step_parts : forall st e,
  total_files (stats_step st e) = total_files st /\
  total_size (stats_step st e) = (total_size st + Z.of_nat (String.length (data e)))%Z /\
  (oldest_time (stats_step st e), oldest_file (stats_step st e)) =
    match oldest_time st with
    | Some t => if (mtime e <? t)%Z then (Some (mtime e), name e) else (Some t, oldest_file st)
    | None => (Some (mtime e), name e)
    end /\
  (newest_time (stats_step st e), newest_file (stats_step st e)) =
    match newest_time st with
    | Some t => if (t <? mtime e)%Z then (Some (mtime e), name e) else (Some t, newest_file st)
    | None => (Some (mtime e), name e)
    end.
Proof.
  intros st e. unfold stats_step.
  destruct (oldest_time st) as [t|]; [destruct (mtime e <? t)%Z|];
    destruct (newest_time st) as [u|]; try destruct (u <? mtime e)%Z;
    repeat split; reflexivity.
Qed.

Lemma oldest_inv_step : forall st seen e,
  oldest_inv st seen -> oldest_inv (stats_step st e) (seen ++ [e])%list.
Proof.
  intros st seen e H. destruct (stats_step_parts st e) as [_ [_ [Ho _]]].
  right. destruct H as [[Ht [Hf ->]] | [eo [Hin [Ht [Hf Hmin]]]]].
  - rewrite Ht in Ho. injection Ho as Ho1 Ho2.
    exists e. repeat split; auto; [left; reflexivity|].
    intros x [<-|[]]. lia.
  - rewrite Ht in Ho. destruct (mtime e <? mtime eo)%Z eqn:Hlt; injection Ho as Ho1 Ho2.
    + apply Z.ltb_lt in Hlt. exists e. repeat split; auto.
      * apply in_or_app. right. left. reflexivity.
      * intros x Hx. apply in_app_or in Hx as [Hx|[<-|[]]]; [specialize (Hmin x Hx); lia | lia].
    + apply Z.ltb_ge in Hlt. exists eo. repeat split; auto.
      * apply in_or_app. left. exact Hin.
      * rewrite Ho2, Hf. reflexivity.
      * intros x Hx. apply in_app_or in Hx as [Hx|[<-|[]]]; [auto | lia].
Qed.

Lemma newest_inv_step : forall st seen e,
  newest_inv st seen -> newest_inv (stats_step st e) (seen ++ [e])%list.
Proof.
  intros st seen e H. destruct (stats_step_parts st e) as [_ [_ [_ Hn]]].
  right. destruct H as [[Ht [Hf ->]] | [en [Hin [Ht [Hf Hmax]]]]].
  - rewrite Ht in Hn. injection Hn as Hn1 Hn2.
    exists e. repeat split; auto; [left; reflexivity|].
    intros x [<-|[]]. lia.
  - rewrite Ht in Hn. destruct (mtime en <? mtime e)%Z eqn:Hlt; injection Hn as Hn1 Hn2.
    + apply Z.ltb_lt in Hlt. exists e. repeat split; auto.
      * apply in_or_app. right. left. reflexivity.
      * intros x Hx. apply in_app_or in Hx as [Hx|[<-|[]]]; [specialize (Hmax x Hx); lia | lia].
    + apply Z.ltb_ge in Hlt. exists en. repeat split; auto.
      * apply in_or_app. left. exact Hin.
      * rewrite Hn2, Hf. reflexivity.
      * intros x Hx. apply in_app_or in Hx as [Hx|[<-|[]]]; [auto | lia].
Qed.

Lemma stats_fold : forall l st seen,
  oldest_inv st seen -> newest_inv st seen ->
  let st' := fold_left stats_step l st in
  oldest_inv st' (seen ++ l)%list /\ newest_inv st' (seen ++ l)%list /\
  total_files st' = total_files st /\
  total_size st' = (total_size st + fold_right (fun e acc => Z.of_nat (String.length (data e)) + acc) 0 l)%Z.
Proof.
  induction l as [|e l IH]; intros st seen Ho Hn; simpl.
  - rewrite app_nil_r. repeat split; auto. lia.
  - destruct (IH (stats_step st e) (seen ++ [e])%list
                 (oldest_inv_step _ _ _ Ho) (newest_inv_step _ _ _ Hn))
      as [Ho' [Hn' [Hf Hs]]].
    rewrite <- app_assoc in Ho', Hn'. simpl in Ho', Hn'.
    destruct (stats_step_parts st e) as [Hf1 [Hs1 _]].
    repeat split; auto; [congruence | rewrite Hs, Hs1; lia].
Qed.

(** X12. GetLogStats counts the .log files, sums their sizes, and reports the name and time of a file with the smallest and of one with the largest modification time; with no .log files both names are empty and both times are unset. *)
Theorem GetLogStats_summary : forall d,
  let files := glob d EmptyString ".log" in
  let st := GetLogStats d in
  total_files st = Z.of_nat (length files) /\
  total_size st = fold_right (fun e acc => Z.of_nat (String.length (data e)) + acc)%Z 0%Z files /\
  (files = [] -> oldest_file st = EmptyString /\ newest_file st = EmptyString /\
                 oldest_time st = None /\ newest_time st = None) /\
  (files <> [] ->
   exists eo en, In eo files /\ In en files /\
     oldest_file st = name eo /\ oldest_time st = Some (mtime eo) /\
     newest_file st = name en /\ newest_time st = Some (mtime en) /\
     forall e, In e files -> (mtime eo <= mtime e <= mtime en)%Z).
Proof.
  intros d files st.
  assert (H0o : oldest_inv (mkLogStats (Z.of_nat (length files)) 0 EmptyString EmptyString None None) [])
    by (left; auto).
  assert (H0n : newest_inv (mkLogStats (Z.of_nat (length files)) 0 EmptyString EmptyString None None) [])
    by (left; auto).
  destruct (stats_fold files _ [] H0o H0n) as [Ho [Hn [Hf Hs]]].
  simpl in Ho, Hn, Hf, Hs. fold files st in Ho, Hn, Hf, Hs.
  split; [exact Hf|]. split; [exact Hs|]. split.
  - intros Hnil. destruct Ho as [[Ho1 [Ho2 _]] | [eo [Hin _]]]; [|rewrite Hnil in Hin; contradiction].
    destruct Hn as [[Hn1 [Hn2 _]] | [en [Hin _]]]; [|rewrite Hnil in Hin; contradiction].
    auto.
  - intros Hne. destruct Ho as [[_ [_ Habs]] | [eo [Hio [Ho1 [Ho2 Hmin]]]]]; [contradiction|].
    destruct Hn as [[_ [_ Habs]] | [en [Hin [Hn1 [Hn2 Hmax]]]]]; [contradiction|].
    exists eo, en. repeat split; auto.
Qed.

Lemma keeps_refl : forall s, keeps s s.
Proof. intros s. repeat split. Qed.

Lemma keeps_trans : forall s1 s2 s3, keeps s1 s2 -> keeps s2 s3 -> keeps s1 s3.
Proof. unfold keeps. intros s1 s2 s3 [A1 [B1 C1]] [A2 [B2 C2]]. repeat split; congruence. Qed.

Lemma frame_bind : forall {A B} (m : M A) (k : A -> M B),
  frame m -> (forall a, frame (k a)) -> frame (bind m k).
Proof.
  intros A B m k Hm Hk s. unfold bind. specialize (Hm s).
  destruct (m s) as [[a|e] s'] eqn:E; simpl in *; [|exact Hm].
  eapply keeps_trans; [exact Hm | apply Hk].
Qed.

Lemma frame_ret : forall {A} (a : A), frame (ret a).
Proof. intros A a s. apply keeps_refl. Qed.

Lemma frame_fail : forall {A} e, frame (@fail A e).
Proof. intros A e s. apply keeps_refl. Qed.

Lemma frame_ignore : forall {A} (m : M A), frame m -> frame (ignore m).
Proof. intros A m H s. exact (H s). Qed.

Lemma frame_get : frame get.
Proof. intros s. apply keeps_refl. Qed.

Lemma frame_file_write : forall p, frame (file_write p).
Proof.
  intros p s. unfold file_write.
  destruct (aggregateFile (agg s)) as [h|]; [destruct (hopen h)|]; repeat split.
Qed.

Lemma frame_set_writer : forall w, frame (set_writer w).
Proof. intros w s. repeat split. Qed.

Lemma frame_writer_flush : frame writer_flush.
Proof.
  intros s. unfold writer_flush.
  destruct (werr (writer (agg s))); [apply keeps_refl|].
  destruct (is_empty (wbuf (writer (agg s)))); [apply keeps_refl|].
  pose proof (frame_file_write (wbuf (writer (agg s))) s) as H.
  destruct (file_write _ s) as [[]  s'] eqn:E; simpl in *;
    (eapply keeps_trans; [exact H | apply frame_set_writer]).
Qed.

Lemma frame_bufio_write_loop : forall fuel p, frame (bufio_write_loop fuel p).
Proof.
  induction fuel as [|fuel IH]; intros p s; cbn [bufio_write_loop].
  - destruct (werr (writer (agg s))); [apply keeps_refl|].
    destruct (_ <=? _)%nat; [apply frame_set_writer | apply keeps_refl].
  - destruct (werr (writer (agg s))); [apply keeps_refl|].
    destruct (_ <=? _)%nat; [apply frame_set_writer|].
    destruct (is_empty (wbuf (writer (agg s)))).
    + pose proof (frame_file_write p s) as H.
      destruct (file_write p s) as [[] s'] eqn:E; simpl in *; [exact H|].
      eapply keeps_trans; [exact H | apply frame_set_writer].
    + eapply keeps_trans; [apply frame_set_writer|].
      eapply keeps_trans; [apply frame_writer_flush | apply IH].
Qed.

Lemma frame_modify_offset : forall f : LogAggregator -> Z,
  frame (modify_agg (fun a => with_offset a (currentFileID a) (f a))).
Proof. intros f s. repeat split. Qed.

Lemma frame_addToIndex : forall e, frame (addToIndex e).
Proof. intros e s. repeat split. Qed.

Lemma frame_flush_entries : forall es, frame (flush_entries es).
Proof.
  induction es as [|e es IH]; cbn [flush_entries]; [apply frame_ret|].
  destruct (marshal e) as [m|]; [|apply frame_fail].
  intros s. pose proof (frame_bufio_write_loop 3 (m +s+ newline) s) as H.
  unfold bufio_write. destruct (bufio_write_loop 3 _ s) as [[] s'] eqn:E; cbn [fst snd] in *; [|exact H].
  eapply keeps_trans; [exact H|].
  apply frame_bind; [apply frame_modify_offset | intros _].
  apply frame_bind; [apply frame_addToIndex | intros _; apply IH].
Qed.

Lemma frame_flushBatch : frame flushBatch.
Proof.
  intros s. unfold flushBatch. destruct (batchBuffer (agg s)) as [|x l]; [apply keeps_refl|].
  apply frame_bind; [apply frame_flush_entries | intros _].
  apply frame_bind; [apply frame_ignore, frame_writer_flush | intros _].
  intros s'. repeat split.
Qed.

Lemma frame_close_file : frame close_file.
Proof.
  intros s. unfold close_file, modify_agg. destruct (aggregateFile (agg s)); repeat split.
Qed.

Lemma frame_cleanupOldFiles : frame cleanupOldFiles.
Proof. intros s. repeat split. Qed.

Lemma frame_initializeFile : frame initializeFile.
Proof.
  intros s. unfold initializeFile.
  assert (H : keeps s (match aggregateFile (agg s) with
                       | Some _ => snd ((ignore writer_flush ;;; close_file) s)
                       | None => s end)).
  { destruct (aggregateFile (agg s)); [|apply keeps_refl].
    apply frame_bind; [apply frame_ignore, frame_writer_flush | intros _; apply frame_close_file]. }
  eapply keeps_trans; [exact H|]. destruct (existsb _ _); repeat split.
Qed.

Lemma frame_rotateFile : frame rotateFile.
Proof.
  unfold rotateFile.
  apply frame_bind; [apply frame_flushBatch | intros _].
  apply frame_bind; [apply frame_ignore, frame_writer_flush | intros _].
  apply frame_bind; [apply frame_close_file | intros _].
  apply frame_bind; [apply frame_cleanupOldFiles | intros _; apply frame_initializeFile].
Qed.

Lemma frame_WriteLog : forall e, frame (WriteLog e).
Proof.
  intros e. unfold WriteLog.
  apply frame_bind; [intros s; repeat split | intros _].
  apply frame_bind; [intros s; apply keeps_refl | intros r].
  apply frame_bind; [destruct r; [apply frame_rotateFile | apply frame_ret] | intros _].
  apply frame_bind; [apply frame_get | intros s0].
  destruct (_ <=? _)%Z; [apply frame_flushBatch | apply frame_ret].
Qed.

(** The batch buffer is left alone by the steps after the flush. *)
Lemma writer_flush_batch : forall s, batchBuffer (agg (snd (writer_flush s))) = batchBuffer (agg s).
Proof.
  intros s. unfold writer_flush.
  destruct (werr (writer (agg s))); [reflexivity|].
  destruct (is_empty (wbuf (writer (agg s)))); [reflexivity|].
  unfold file_write.
  destruct (aggregateFile (agg s)) as [h|]; [destruct (hopen h)|]; reflexivity.
Qed.

Lemma flushBatch_ok_clears : forall s,
  fst (flushBatch s) = Ok tt -> batchBuffer (agg (snd (flushBatch s))) = [].
Proof.
  intros s H. unfold flushBatch in *. destruct (batchBuffer (agg s)) eqn:Hb; [exact Hb|].
  unfold bind in *. destruct (flush_entries _ s) as [[] s1]; simpl in *; [|discriminate].
  reflexivity.
Qed.

Lemma dir_lookup_app_new : forall d x n,
  dir_lookup d n = None -> name x = n -> dir_lookup (d ++ [x])%list n = Some x.
Proof.
  induction d as [|y d IH]; intros x n H Hx; simpl in *.
  - rewrite Hx, String.eqb_refl. reflexivity.
  - destruct (String.eqb (name y) n); [discriminate|]. apply IH; auto.
Qed.

Lemma open_new_shard_opens : forall s,
  let s' := open_new_shard s in
  currentOffset (agg s') = 0%Z /\
  aggregateFile (agg s') = Some (mkHandle (currentFileID (agg s') +s+ ".log") true) /\
  batchBuffer (agg s') = batchBuffer (agg s) /\
  dir_lookup (dir s') (currentFileID (agg s') +s+ ".log") <> None.
Proof.
  intros s s'. subst s'. unfold open_new_shard. simpl. repeat split.
  match goal with |- dir_lookup (match ?c with Some _ => _ | None => _ end) ?n <> None =>
    destruct c eqn:E end.
  - rewrite E. discriminate.
  - erewrite (dir_lookup_app_new _ _ _ E); [discriminate | reflexivity].
Qed.

Lemma initializeFile_opens : forall s s',
  initializeFile s = (Ok tt, s') ->
  currentOffset (agg s') = 0%Z /\
  aggregateFile (agg s') = Some (mkHandle (currentFileID (agg s') +s+ ".log") true) /\
  batchBuffer (agg s') = batchBuffer (agg s) /\
  dir_lookup (dir s') (currentFileID (agg s') +s+ ".log") <> None.
Proof.
  intros s s' H. unfold initializeFile in H.
  set (s1 := match aggregateFile (agg s) with
             | Some _ => snd ((ignore writer_flush ;;; close_file) s)
             | None => s end) in H.
  match type of H with (if ?c then _ else _) = _ => destruct c end; [discriminate|].
  injection H as <-.
  destruct (open_new_shard_opens s1) as [H1 [H2 [H3 H4]]].
  split; [exact H1|]. split; [exact H2|]. split; [|exact H4].
  rewrite H3. subst s1. destruct (aggregateFile (agg s)) eqn:Ha; [|reflexivity].
  unfold bind, ignore. cbn [fst snd]. unfold close_file, modify_agg. cbn [agg snd].
  rewrite <- (writer_flush_batch s).
  destruct (aggregateFile (agg (snd (writer_flush s)))); reflexivity.
Qed.

Lemma rotateFile_ok : forall s s',
  rotateFile s = (Ok tt, s') ->
  currentOffset (agg s') = 0%Z /\ batchBuffer (agg s') = [] /\
  aggregateFile (agg s') = Some (mkHandle (currentFileID (agg s') +s+ ".log") true) /\
  dir_lookup (dir s') (currentFileID (agg s') +s+ ".log") <> None.
Proof.
  intros s s' H. unfold rotateFile in H. unfold bind at 1 in H.
  pose proof (flushBatch_ok_clears s) as Hc.
  destruct (flushBatch s) as [[[]|er] s1] eqn:E; [|discriminate].
  specialize (Hc eq_refl). cbn [snd] in Hc.
  cbv beta iota delta [bind ignore cleanupOldFiles] in H. cbn [fst snd] in H.
  set (s2 := snd (writer_flush s1)) in H.
  assert (Hb2 : batchBuffer (agg s2) = []) by (subst s2; rewrite writer_flush_batch; exact Hc).
  assert (Hcl : exists a, close_file s2 = (Ok tt, set_agg s2 a) /\ batchBuffer a = []).
  { unfold close_file, modify_agg. eexists. split; [reflexivity|].
    destruct (aggregateFile (agg s2)); exact Hb2. }
  destruct Hcl as [a [Ecl Hba]]. rewrite Ecl in H.
  match type of H with initializeFile ?x = _ => set (s4 := x) in H end.
  assert (Hb4 : batchBuffer (agg s4) = []) by exact Hba.
  destruct (initializeFile_opens s4 s' H) as [H1 [H2 [H3 H4]]].
  repeat split; auto. congruence.
Qed.

(** X14. Since lastRotation is never updated, once the day differs from the creation day every successful WriteLog rotates: the batch is flushed, a fresh shard is opened with offset 0 and an empty buffer, and the next write will rotate again. *)
Theorem day_change_rotates_every_write : forall e s s',
  day (now s) <> day (lastRotation (agg s)) ->
  (0 < batchSize (agg s))%Z ->
  WriteLog e s = (Ok tt, s') ->
  currentOffset (agg s') = 0%Z /\ batchBuffer (agg s') = [] /\
  aggregateFile (agg s') = Some (mkHandle (currentFileID (agg s') +s+ ".log") true) /\
  dir_lookup (dir s') (currentFileID (agg s') +s+ ".log") <> None /\
  day (now s') <> day (lastRotation (agg s')).
Proof.
  intros e s s' Hday Hbs H.
  pose proof (frame_WriteLog e s) as Hk. rewrite H in Hk. destruct Hk as [Hr [Hn _]].
  cbn [snd] in Hr, Hn.
  assert (Hd' : day (now s') <> day (lastRotation (agg s'))) by congruence.
  unfold WriteLog in H. cbv beta iota delta [bind modify_agg] in H.
  unfold shouldRotate in H. cbv beta iota zeta in H.
  cbn [set_agg with_batch agg lastRotation now] in H.
  replace (day (now s) =? day (lastRotation (agg s)))%Z with false in H
    by (symmetry; apply Z.eqb_neq; exact Hday).
  change (negb false) with true in H. rewrite orb_true_r in H. cbv beta iota in H.
  match type of H with context [rotateFile ?x] => set (s1 := x) in H end.
  pose proof (frame_rotateFile s1) as Hf1.
  destruct (rotateFile s1) as [[[]|er] s2] eqn:E2; [|discriminate].
  destruct (rotateFile_ok s1 s2 E2) as [H1 [H2 [H3 H4]]].
  destruct Hf1 as [_ [_ Hb1]]. cbn [snd] in Hb1.
  cbv beta iota delta [get ret] in H.
  rewrite H2 in H. cbn [length Z.of_nat] in H.
  replace (batchSize (agg s2) <=? 0)%Z with false in H
    by (symmetry; apply Z.leb_gt; rewrite Hb1; subst s1; exact Hbs).
  injection H as <-. auto.
Qed.

Lemma io_only_trans : forall s1 s2 s3, io_only s1 s2 -> io_only s2 s3 -> io_only s1 s3.
Proof. unfold io_only. intros s1 s2 s3 H1 H2. intuition congruence. Qed.

Lemma sapp_assoc : forall a b c, (a +s+ b) +s+ c = a +s+ b +s+ c.
Proof. induction a as [|x a IH]; intros b c; simpl; [reflexivity | now rewrite IH]. Qed.

Lemma sapp_nil_r : forall a, a +s+ EmptyString = a.
Proof. induction a as [|x a IH]; simpl; [reflexivity | now rewrite IH]. Qed.

Lemma slen_app : forall a b, String.length (a +s+ b) = (String.length a + String.length b)%nat.
Proof. induction a as [|x a IH]; intros b; simpl; [reflexivity | now rewrite IH]. Qed.

Lemma dir_lookup_append : forall d n p t f,
  dir_lookup d n = Some f ->
  dir_lookup (dir_append d n p t) n = Some (mkDirEntry (name f) (data f +s+ p) t).
Proof.
  induction d as [|e d IH]; intros n p t f H; simpl in H; [discriminate|].
  unfold dir_append. simpl.
  destruct (String.eqb (name e) n) eqn:E.
  - injection H as <-. simpl. rewrite E. reflexivity.
  - rewrite E. apply IH. exact H.
Qed.

Lemma file_write_ok : forall s n x p,
  ready s n -> file_data s n = Some x ->
  exists s', file_write p s = (Ok tt, s') /\ agg s' = agg s /\ file_data s' n = Some (x +s+ p).
Proof.
  intros s n x p [Ha _] Hx. unfold file_data in Hx.
  destruct (dir_lookup (dir s) n) as [f|] eqn:Hl; [|discriminate]. injection Hx as <-.
  unfold file_write. rewrite Ha. cbn [hopen hname].
  eexists. split; [reflexivity|]. split; [reflexivity|].
  unfold file_data. cbn [set_dir dir]. rewrite (dir_lookup_append _ _ _ _ f Hl). reflexivity.
Qed.

Lemma set_writer_ready : forall s n b,
  ready s n -> ready (snd (set_writer (mkWriter b None) s)) n.
Proof. intros s n b [Ha _]. split; [exact Ha | reflexivity]. Qed.

Lemma set_writer_io : forall s w, io_only s (snd (set_writer w s)).
Proof. intros s w. repeat split. Qed.

Lemma writer_flush_ok : forall s n x,
  ready s n -> file_data s n = Some x ->
  exists s', writer_flush s = (Ok tt, s') /\ ready s' n /\ io_only s s' /\
             wbuf (writer (agg s')) = EmptyString /\
             file_data s' n = Some (x +s+ wbuf (writer (agg s))).
Proof.
  intros s n x Hr Hx. pose proof Hr as [Ha He]. unfold writer_flush. rewrite He.
  destruct (is_empty (wbuf (writer (agg s)))) eqn:Hb.
  - exists s. unfold is_empty in Hb. apply String.eqb_eq in Hb.
    rewrite Hb, sapp_nil_r. repeat split; auto.
  - destruct (file_write_ok s n x (wbuf (writer (agg s))) Hr Hx) as [s1 [E1 [A1 F1]]].
    rewrite E1. eexists. split; [reflexivity|].
    split; [|split; [|split]].
    + split; [cbn; rewrite A1; exact Ha | reflexivity].
    + repeat split; cbn; rewrite A1; reflexivity.
    + reflexivity.
    + exact F1.
Qed.

(** One round of the loop of [bufio.Writer.Write]. *)
Lemma bufio_write_loop_S : forall k p s,
  bufio_write_loop (S k) p s =
  match werr (writer (agg s)) with
  | Some e => (Err e, s)
  | None =>
    let avail := (bufio_size - String.length (wbuf (writer (agg s))))%nat in
    if (String.length p <=? avail)%nat then
      set_writer (mkWriter (wbuf (writer (agg s)) +s+ p) None) s
    else if is_empty (wbuf (writer (agg s))) then
      match file_write p s with
      | (Ok _, s') => (Ok tt, s')
      | (Err e, s') => (Err e, snd (set_writer (mkWriter EmptyString (Some e)) s'))
      end
    else
      let s1 := snd (set_writer (mkWriter (wbuf (writer (agg s)) +s+ substring 0 avail p) None) s) in
      let s2 := snd (writer_flush s1) in
      bufio_write_loop k (substring avail (String.length p - avail) p) s2
  end.
Proof. reflexivity. Qed.

(** A write into an empty buffer: one round is enough. *)
Lemma bufio_empty_ok : forall k p s n x,
  ready s n -> file_data s n = Some x -> wbuf (writer (agg s)) = EmptyString ->
  exists s' y, bufio_write_loop (S k) p s = (Ok tt, s') /\ ready s' n /\ io_only s s' /\
               file_data s' n = Some y /\ y +s+ wbuf (writer (agg s')) = x +s+ p.
Proof.
  intros k p s n x Hr Hx Hb. pose proof Hr as [Ha He].
  rewrite bufio_write_loop_S, He. cbv zeta.
  destruct (String.length p <=? bufio_size - String.length (wbuf (writer (agg s))))%nat.
  - eexists; exists x. split; [reflexivity|]. split; [apply set_writer_ready; exact Hr|].
    split; [apply set_writer_io|]. split; [exact Hx|]. cbn. rewrite Hb. reflexivity.
  - rewrite Hb. cbn [is_empty String.eqb].
    destruct (file_write_ok s n x p Hr Hx) as [s1 [E1 [A1 F1]]]. rewrite E1.
    exists s1, (x +s+ p). split; [reflexivity|].
    split; [split; rewrite A1; [exact Ha | exact He]|].
    split; [repeat split; rewrite A1; reflexivity|].
    split; [exact F1|]. rewrite A1, Hb. apply sapp_nil_r.
Qed.

Lemma bufio_write_ok : forall p s n x,
  ready s n -> file_data s n = Some x ->
  exists s' y, bufio_write p s = (Ok tt, s') /\ ready s' n /\ io_only s s' /\
               file_data s' n = Some y /\
               y +s+ wbuf (writer (agg s')) = x +s+ wbuf (writer (agg s)) +s+ p.
Proof.
  intros p s n x Hr Hx. pose proof Hr as [Ha He].
  unfold bufio_write. rewrite bufio_write_loop_S, He. cbv zeta.
  set (b := wbuf (writer (agg s))).
  set (avail := (bufio_size - String.length b)%nat).
  destruct (String.length p <=? avail)%nat eqn:Hfit.
  - eexists; exists x. split; [reflexivity|]. split; [apply set_writer_ready; exact Hr|].
    split; [apply set_writer_io|]. split; [exact Hx|]. reflexivity.
  - apply Nat.leb_gt in Hfit.
    destruct (is_empty b) eqn:Hb.
    + unfold is_empty in Hb. apply String.eqb_eq in Hb.
      destruct (file_write_ok s n x p Hr Hx) as [s1 [E1 [A1 F1]]]. rewrite E1.
      exists s1, (x +s+ p). split; [reflexivity|].
      split; [split; rewrite A1; [exact Ha | exact He]|].
      split; [repeat split; rewrite A1; reflexivity|].
      split; [exact F1|]. rewrite A1. fold b. rewrite Hb. simpl. apply sapp_nil_r.
    + set (s1 := snd (set_writer (mkWriter (b +s+ substring 0 avail p) None) s)).
      assert (Hr1 : ready s1 n) by (apply set_writer_ready; exact Hr).
      assert (Hx1 : file_data s1 n = Some x) by exact Hx.
      destruct (writer_flush_ok s1 n x Hr1 Hx1) as [s2 [E2 [Hr2 [Io2 [Hb2 F2]]]]].
      rewrite E2. cbn [snd].
      destruct (bufio_empty_ok 1 (substring avail (String.length p - avail) p) s2 n _ Hr2 F2 Hb2)
        as [s3 [y [E3 [Hr3 [Io3 [F3 C3]]]]]].
      rewrite E3. exists s3, y. split; [reflexivity|]. split; [exact Hr3|].
      split; [eapply io_only_trans; [apply (set_writer_io s) | eapply io_only_trans; eauto]|].
      split; [exact F3|]. rewrite C3. cbn [s1 set_writer modify_agg set_agg agg writer wbuf snd with_file].
      rewrite !sapp_assoc. f_equal. f_equal.
      symmetry. apply (substring_split avail p). lia.
Qed.

Lemma flush_entries_ok : forall es ms s n x,
  Forall2 (fun e m => marshal e = Some m) es ms ->
  ready s n -> file_data s n = Some x ->
  exists s' y, flush_entries es s = (Ok tt, s') /\ ready s' n /\
    file_data s' n = Some y /\
    y +s+ wbuf (writer (agg s')) = x +s+ wbuf (writer (agg s)) +s+ encode_lines ms /\
    aggregateFile (agg s') = aggregateFile (agg s) /\
    batchBuffer (agg s') = batchBuffer (agg s) /\
    currentOffset (agg s') = (currentOffset (agg s) + Z.of_nat (String.length (encode_lines ms)))%Z /\
    indexed (agg s') = (indexed (agg s) ++ es)%list.
Proof.
  intros es ms s n x H. revert s x.
  induction H as [|e m es ms Hm H IH]; intros s x Hr Hx.
  - exists s, x. cbn [flush_entries ret encode_lines]. rewrite sapp_nil_r, app_nil_r.
    split; [reflexivity|]. split; [exact Hr|]. split; [exact Hx|].
    repeat split. simpl String.length. lia.
  - cbn [flush_entries]. rewrite Hm.
    destruct (bufio_write_ok (m +s+ newline) s n x Hr Hx)
      as [s1 [y1 [E1 [Hr1 [[A1 [I1 [O1 [B1 X1]]]] [F1 C1]]]]]].
    rewrite E1.
    set (s2 := snd ((modify_agg (fun a => with_offset a (currentFileID a)
                 (currentOffset a + Z.of_nat (String.length m) + 1)%Z) ;;; addToIndex e) s1)).
    assert (Hr2 : ready s2 n) by (destruct Hr1; split; assumption).
    assert (F2 : file_data s2 n = Some y1) by exact F1.
    destruct (IH s2 y1 Hr2 F2) as [s3 [y [E3 [Hr3 [F3 [C3 [A3 [B3 [O3 X3]]]]]]]]].
    exists s3, y.
    unfold bind at 1. cbn [modify_agg]. unfold bind at 1. cbn [addToIndex modify_agg].
    fold s2 in E3 |- *.
    split; [exact E3|]. split; [exact Hr3|]. split; [exact F3|].
    split.
    + rewrite C3. change (wbuf (writer (agg s2))) with (wbuf (writer (agg s1))).
      rewrite <- sapp_assoc, C1. cbn [encode_lines]. rewrite !sapp_assoc. reflexivity.
    + split; [rewrite A3; exact A1|]. split; [rewrite B3; exact B1|].
      split.
      * rewrite O3. change (currentOffset (agg s2)) with
          (currentOffset (agg s1) + Z.of_nat (String.length m) + 1)%Z.
        rewrite O1. cbn [encode_lines]. rewrite !slen_app. simpl String.length. lia.
      * rewrite X3. change (indexed (agg s2)) with (indexed (agg s1) ++ [e])%list.
        rewrite X1, <- app_assoc. reflexivity.
Qed.

(** X15. With an open shard, a healthy writer and encodable records, flushBatch appends the pending writer buffer and the newline-terminated encodings of the batch to the shard, empties writer and batch, advances currentOffset by the bytes of the batch and indexes every record. *)
Theorem flushBatch_appends_batch : forall s n x ms,
  ready s n -> file_data s n = Some x -> batchBuffer (agg s) <> [] ->
  Forall2 (fun e m => marshal e = Some m) (batchBuffer (agg s)) ms ->
  exists s', flushBatch s = (Ok tt, s') /\
    file_data s' n = Some (x +s+ wbuf (writer (agg s)) +s+ encode_lines ms) /\
    wbuf (writer (agg s')) = EmptyString /\ batchBuffer (agg s') = [] /\
    aggregateFile (agg s') = aggregateFile (agg s) /\
    currentOffset (agg s') = (currentOffset (agg s) + Z.of_nat (String.length (encode_lines ms)))%Z /\
    indexed (agg s') = (indexed (agg s) ++ batchBuffer (agg s))%list.
Proof.
  intros s n x ms Hr Hx Hne H.
  destruct (flush_entries_ok _ _ s n x H Hr Hx)
    as [s1 [y [E1 [Hr1 [F1 [C1 [A1 [B1 [O1 X1]]]]]]]]].
  destruct (writer_flush_ok s1 n y Hr1 F1) as [s2 [E2 [Hr2 [[A2 [I2 [O2 [B2 X2]]]] [Hb2 F2]]]]].
  unfold flushBatch. destruct (batchBuffer (agg s)) as [|b0 bs] eqn:Hb; [contradiction|].
  unfold bind at 1. rewrite E1. unfold bind at 1. unfold ignore at 1. rewrite E2. cbn [snd].
  eexists. split; [reflexivity|].
  cbn [modify_agg set_agg agg with_batch writer aggregateFile currentOffset indexed batchBuffer].
  split; [unfold file_data in F2 |- *; cbn [dir set_agg]; rewrite F2, C1; reflexivity|].
  split; [exact Hb2|]. split; [reflexivity|].
  split; [congruence|]. split; [congruence|]. congruence.
Qed.

(** The encodings [ms] of the records [l], as one equation of lists. *)
Lemma Forall2_marshal_of_map : forall l ms,
  map marshal l = map Some ms -> Forall2 (fun e m => marshal e = Some m) l ms.
Proof.
  induction l as [|e l IH]; intros [|m ms] H; simpl in H; try discriminate; constructor.
  - injection H as H _. exact H.
  - injection H as _ H. exact (IH ms H).
Qed.


(** Witness of X4. *)
Lemma readLogEntry_line_at_offset_witness :
  let p := marshal_or_empty ra +s+ newline in
  let line := marshal_or_empty rb in
  let f := mkDirEntry "x.log" (p +s+ line +s+ newline +s+ EmptyString) 0 in
  dir_lookup [f] "x.log" = Some f /\ data f = p +s+ line +s+ newline +s+ EmptyString /\
  no_line_break line = true /\
  readLogEntry (decode_known [ra; rb]) [f] "x.log" (Z.of_nat (String.length p)) = Some rb.
Proof.
  intros p line f.
  split; [reflexivity|]. split; [reflexivity|]. split; [vm_compute; reflexivity|].
  rewrite (readLogEntry_line_at_offset (decode_known [ra; rb]) [f] "x.log" f p line EmptyString);
    [vm_compute; reflexivity | reflexivity | reflexivity | vm_compute; reflexivity].
Defined.

(** Witness of X5. *)
Lemma readLogEntry_fails_out_of_range_witness :
  (dir_lookup [mkDirEntry "x.log" "ab" 0] "x.log" = None \/
   exists f, dir_lookup [mkDirEntry "x.log" "ab" 0] "x.log" = Some f /\
             (5 < 0 \/ Z.of_nat (String.length (data f)) <= 5)%Z) /\
  readLogEntry (decode_known [ra]) [mkDirEntry "x.log" "ab" 0] "x.log" 5 = None.
Proof.
  assert (H : dir_lookup [mkDirEntry "x.log" "ab" 0] "x.log" = None \/
              exists f, dir_lookup [mkDirEntry "x.log" "ab" 0] "x.log" = Some f /\
                        (5 < 0 \/ Z.of_nat (String.length (data f)) <= 5)%Z).
  { right. exists (mkDirEntry "x.log" "ab" 0). split; [reflexivity|]. right. simpl. lia. }
  split; [exact H|].
  exact (readLogEntry_fails_out_of_range (decode_known [ra]) [mkDirEntry "x.log" "ab" 0]
           "x.log" 5 H).
Defined.

(** Witness of X6. *)
Lemma index_lookup_roundtrip_witness :
  dbOpen (mkIndexDB true []) = true /\
  In (index_key (mk_query "t1" EmptyString 10 0 true)) (map fst (index_puts ra)) /\
  excludes ":"%char (FileID ra) = true /\
  (- 2 ^ 63 <= Offset ra < 2 ^ 63)%Z /\
  queryWithIndex (decode_known [ra]) (mk_query "t1" EmptyString 10 0 true) (dir st_one)
                 (index_update (mkIndexDB true []) ra) =
    match readLogEntry (decode_known [ra]) (dir st_one) (FileID ra +s+ ".log") (Offset ra) with
    | Some x => Some [x]
    | None => None
    end.
Proof.
  assert (H2 : In (index_key (mk_query "t1" EmptyString 10 0 true)) (map fst (index_puts ra)))
    by (vm_compute; left; reflexivity).
  assert (H4 : (- 2 ^ 63 <= Offset ra < 2 ^ 63)%Z) by (change (Offset ra) with 0%Z; lia).
  split; [reflexivity|]. split; [exact H2|]. split; [vm_compute; reflexivity|].
  split; [exact H4|].
  apply (index_lookup_roundtrip (decode_known [ra]) (mk_query "t1" EmptyString 10 0 true)
           (dir st_one) (mkIndexDB true []) ra eq_refl H2); [vm_compute; reflexivity | exact H4].
Defined.

(** Witness of X7. *)
Lemma index_lookup_fails_on_colon_file_id_witness :
  dbOpen (mkIndexDB true []) = true /\
  In (index_key (mk_query "t1" EmptyString 10 0 true)) (map fst (index_puts rec_colon)) /\
  excludes ":"%char (FileID rec_colon) = false /\
  queryWithIndex (decode_known [rec_colon]) (mk_query "t1" EmptyString 10 0 true) (dir st_one)
                 (index_update (mkIndexDB true []) rec_colon) = None.
Proof.
  assert (H2 : In (index_key (mk_query "t1" EmptyString 10 0 true))
                  (map fst (index_puts rec_colon)))
    by (vm_compute; left; reflexivity).
  split; [reflexivity|]. split; [exact H2|]. split; [vm_compute; reflexivity|].
  apply (index_lookup_fails_on_colon_file_id (decode_known [rec_colon])
           (mk_query "t1" EmptyString 10 0 true) (dir st_one) (mkIndexDB true []) rec_colon
           eq_refl H2). vm_compute. reflexivity.
Defined.

(** Witness of X8. *)
Lemma scan_pagination_window_witness :
  (0 <= qOffset (mk_query "t1" EmptyString 1 1 false))%Z /\
  (0 <= qLimit (mk_query "t1" EmptyString 1 1 false))%Z /\
  (qOffset (mk_query "t1" EmptyString 1 1 false) + qLimit (mk_query "t1" EmptyString 1 1 false)
     < 2 ^ 63)%Z /\
  queryWithFileScan (decode_known [ra; rb]) literal_match no_time
                    (mk_query "t1" EmptyString 1 1 false) (dir st_two) =
    QOk (mkLogQueryResult
           (firstn 1 (skipn 1 (scan_matches (decode_known [ra; rb]) literal_match no_time
                                 (mk_query "t1" EmptyString 1 1 false) (dir st_two))))
           (Z.of_nat (length (scan_matches (decode_known [ra; rb]) literal_match no_time
                                 (mk_query "t1" EmptyString 1 1 false) (dir st_two))))
           1 1).
Proof.
  split; [cbn; lia|]. split; [cbn; lia|]. split; [cbn; lia|].
  exact (scan_pagination_window (decode_known [ra; rb]) literal_match no_time
           (mk_query "t1" EmptyString 1 1 false) (dir st_two)
           ltac:(cbn; lia) ltac:(cbn; lia) ltac:(cbn; lia)).
Defined.

(** Witness of X10. *)
Lemma scan_results_satisfy_query_witness :
  queryWithFileScan (decode_known [ra]) literal_match no_time
                    (mk_query "t1" EmptyString 10 0 false) (dir st_one)
    = QOk (mkLogQueryResult [ra] 1 10 0) /\
  In ra (Entries (mkLogQueryResult [ra] 1 10 0)) /\
  TraceID ra = qTraceID (mk_query "t1" EmptyString 10 0 false).
Proof.
  assert (H1 : queryWithFileScan (decode_known [ra]) literal_match no_time
                 (mk_query "t1" EmptyString 10 0 false) (dir st_one)
               = QOk (mkLogQueryResult [ra] 1 10 0)) by (vm_compute; reflexivity).
  assert (H2 : In ra (Entries (mkLogQueryResult [ra] 1 10 0))) by (left; reflexivity).
  split; [exact H1|]. split; [exact H2|].
  destruct (scan_results_satisfy_query (decode_known [ra]) literal_match no_time
              (mk_query "t1" EmptyString 10 0 false) (dir st_one) _ ra H1 H2) as [Ht _].
  apply Ht. discriminate.
Defined.

(** Witness of X11. *)
Lemma gz_archives_survive_cleanup_witness :
  In (first_entry dir_gz) (dir st_gz) /\
  has_suffix ".gz" (name (first_entry dir_gz)) = true /\
  In (first_entry dir_gz) (dir (snd (cleanupOldFiles st_gz))) /\
  In (first_entry dir_gz) (CleanupOldLogs (now st_gz) (dir st_gz) 0).
Proof.
  assert (H1 : In (first_entry dir_gz) (dir st_gz)) by (left; reflexivity).
  assert (H2 : has_suffix ".gz" (name (first_entry dir_gz)) = true) by (vm_compute; reflexivity).
  split; [exact H1|]. split; [exact H2|].
  exact (gz_archives_survive_cleanup st_gz (first_entry dir_gz) 0 H1 H2).
Defined.

(** Witness of X14. *)
Lemma day_change_rotates_every_write_witness :
  day (now st_idle) <> day (lastRotation (agg st_idle)) /\
  (0 < batchSize (agg st_idle))%Z /\
  WriteLog (rec_msg "c") st_idle = (Ok tt, snd (WriteLog (rec_msg "c") st_idle)) /\
  currentOffset (agg (snd (WriteLog (rec_msg "c") st_idle))) = 0%Z.
Proof.
  assert (H1 : day (now st_idle) <> day (lastRotation (agg st_idle)))
    by (vm_compute; intros H; discriminate H).
  assert (H2 : (0 < batchSize (agg st_idle))%Z) by (vm_compute; reflexivity).
  assert (H3 : WriteLog (rec_msg "c") st_idle = (Ok tt, snd (WriteLog (rec_msg "c") st_idle)))
    by (vm_compute; reflexivity).
  split; [exact H1|]. split; [exact H2|]. split; [exact H3|].
  exact (proj1 (day_change_rotates_every_write (rec_msg "c") st_idle _ H1 H2 H3)).
Defined.

(** Witness of X15. *)
Lemma flushBatch_appends_batch_witness :
  ready st_w1 (fid0 +s+ ".log") /\
  file_data st_w1 (fid0 +s+ ".log") = Some EmptyString /\
  batchBuffer (agg st_w1) <> [] /\
  Forall2 (fun e m => marshal e = Some m) (batchBuffer (agg st_w1)) [marshal_or_empty ra] /\
  exists s', flushBatch st_w1 = (Ok tt, s') /\
    file_data s' (fid0 +s+ ".log") =
      Some (EmptyString +s+ wbuf (writer (agg st_w1)) +s+ encode_lines [marshal_or_empty ra]).
Proof.
  assert (H1 : ready st_w1 (fid0 +s+ ".log")) by (split; vm_compute; reflexivity).
  assert (H2 : file_data st_w1 (fid0 +s+ ".log") = Some EmptyString) by (vm_compute; reflexivity).
  assert (H3 : batchBuffer (agg st_w1) <> []) by (vm_compute; intros H; discriminate H).
  assert (H4 : Forall2 (fun e m => marshal e = Some m) (batchBuffer (agg st_w1))
                       [marshal_or_empty ra])
    by (apply Forall2_marshal_of_map; vm_compute; reflexivity).
  split; [exact H1|]. split; [exact H2|]. split; [exact H3|]. split; [exact H4|].
  destruct (flushBatch_appends_batch st_w1 (fid0 +s+ ".log") EmptyString [marshal_or_empty ra]
              H1 H2 H3 H4) as [s' [E [F _]]].
  exists s'. split; [exact E | exact F].
Defined.

(** C8 (corrected), amended. When [UseIndex] is set, exactly one of the
    four attributes is given and the global index store is open: if the
    chosen bucket has no entry for the key, [QueryLogs] returns the scan
    plan's result. If the entry is [<fid>:<offset>] and [offset] is the
    start of a line of [<fid>.log], then: when the line is shorter than
    bufio.Scanner's 65536-byte token limit and decodes to [e], the query
    returns exactly [[e]] with total 1; when the line is too long or does
    not decode, [QueryLogs] returns the scan plan's result. *)
Theorem QueryLogs_index_lookup : forall unm rx pt db q d,
  qUseIndex q = true -> canUseIndex q = true -> dbOpen db = true ->
  (db_get db (fst (index_key q)) (snd (index_key q)) = None ->
   QueryLogs unm rx pt (Some db) q d = queryWithFileScan unm rx pt q d) /\
  (forall v fid offs f p line rest,
     db_get db (fst (index_key q)) (snd (index_key q)) = Some v ->
     split_on ":"%char v = [fid; offs] ->
     parseInt offs = Some (Z.of_nat (String.length p)) ->
     dir_lookup d (fid +s+ ".log") = Some f ->
     data f = p +s+ line +s+ newline +s+ rest ->
     no_line_break line = true ->
     QueryLogs unm rx pt (Some db) q d =
       if (Z.of_nat (String.length line) <? maxScanTokenSize)%Z then
         match unm line with
         | Some e => QOk (mkLogQueryResult [e] 1 (qLimit q) (qOffset q))
         | None => queryWithFileScan unm rx pt q d
         end
       else queryWithFileScan unm rx pt q d).
Proof.
  intros unm rx pt db q d Hu Hc Ho.
  pose proof (index_key_bucket q Hc) as Hb.
  unfold QueryLogs. rewrite Hu, Hc. simpl.
  unfold queryWithIndex. rewrite Ho. simpl.
  destruct (index_key q) as [bucket key]. simpl in Hb |- *. rewrite Hb. simpl.
  split.
  - intros Hg. rewrite Hg. reflexivity.
  - intros v fid offs f p line rest Hg Hs Hp Hl Hd Hn. rewrite Hg, Hs, Hp.
    rewrite (readLogEntry_at_line unm d (fid +s+ ".log") f p line rest Hl Hd Hn).
    destruct (Z.of_nat (String.length line) <? maxScanTokenSize)%Z; [|reflexivity].
    destruct (unm line); reflexivity.
Qed.

(** Witness of [QueryLogs_index_lookup] on the record [ra]: its index
    entry points at offset 0 of the first shard, whose first line is the
    record. *)
Lemma QueryLogs_index_lookup_witness :
  qUseIndex (mk_query "t1" EmptyString 10 0 true) = true /\
  canUseIndex (mk_query "t1" EmptyString 10 0 true) = true /\
  dbOpen db_ra = true /\
  QueryLogs (decode_known [ra]) literal_match no_time (Some db_ra)
            (mk_query "t1" EmptyString 10 0 true) (dir st_one)
    = QOk (mkLogQueryResult [ra] 1 10 0).
Proof.
  split; [reflexivity|]. split; [reflexivity|]. split; [reflexivity|].
  rewrite (proj2 (QueryLogs_index_lookup (decode_known [ra]) literal_match no_time db_ra
                    (mk_query "t1" EmptyString 10 0 true) (dir st_one)
                    eq_refl eq_refl eq_refl)
             (fid0 +s+ ":0") fid0 "0" (first_entry (dir st_one)) EmptyString
             (marshal_or_empty ra) EmptyString);
    vm_compute; reflexivity.
Defined.

